(** * Chandy-Lamport snapshot simulation: peers, channels and snapshot tasks

    A shallow embedding of the peer simulation of [controller.ts]: the
    classes [Message], [VirtualConnection], [SnapshotTask], [VirtualPeer] and
    the function [connect]. Line numbers refer to that file.

    Conventions of the embedding.
    - A [VirtualPeer] object is identified by its reference ([PeerRef]); the
      objects live in a store and connections hold references, as in the
      source, where [indexOf] and [===] compare object identity.
    - The numbers handed in by the driver (initial balances, amounts,
      snapshot ids, delays) are integers, given as [Z]; they stand for
      JavaScript numbers, so they are integers a binary64 value can hold.
      A balance and an entry of a snapshot vector is a [number]: what
      binary64 addition and subtraction make of such integers, that is an
      integer, an infinity, or [NaN] ([undefined + n] is [NaN] when a slot
      that does not exist is incremented). Sums are rounded as binary64
      rounds them ([round64]): exact up to 2^53, to the nearest value with
      a 53-bit significand (ties to even) above, infinite from 2^1024 on.
      Negative zero is not told apart from zero: the program never divides,
      and both print as 0.
    - A JavaScript array is a list of slots, each filled or a hole, together
      with the own property ["-1"], which is what [a[-1] = v] writes when
      [indexOf] did not find the sender.
    - [console.log] lines are kept as a trace of [LogEntry] values; the time
      stamp and the colours are left out. *)

From Stdlib Require Import ZArith Lia String.
From Stdlib Require Floats.
From stdpp Require Import base option list gmap.

Set Default Proof Using "Type".

(** ** JavaScript values used by the program *)

(** A JavaScript [number] as it occurs in a balance or a snapshot vector. *)
Inductive number :=
  | Num (z : Z)
  | PosInf
  | NegInf
  | NaN.

#[global] Instance number_eq_dec : EqDecision number.
Proof. solve_decision. Defined.

(** The binary64 value nearest to the integer [z], ties to the even
    significand: integers below 2^53 in magnitude are kept; above, the
    spacing of the values is [ulp], a power of two that leaves 53 bits; a
    result of magnitude 2^1024 or more is an infinity. *)
Definition round64 (z : Z) : number :=
  let a := Z.abs z in
  if decide (a < 2 ^ 53)%Z then Num z
  else
    let ulp := (2 ^ (Z.log2 a - 52))%Z in
    let q := (a / ulp)%Z in
    let r := (a mod ulp)%Z in
    let q' := if decide (2 * r < ulp)%Z then q
              else if decide (ulp < 2 * r)%Z then (q + 1)%Z
              else if Z.even q then q else (q + 1)%Z in
    let m := (q' * ulp)%Z in
    if decide (2 ^ 1024 ≤ m)%Z
    then (if decide (0 ≤ z)%Z then PosInf else NegInf)
    else Num (Z.sgn z * m).

(** [x + n] for a number [x] and an integer [n]. *)
Definition addNumber (x : number) (n : Z) : number :=
  match x with
  | Num z => round64 (z + n)
  | PosInf => PosInf
  | NegInf => NegInf
  | NaN => NaN
  end.

(** [x - n] for a number [x] and an integer [n]. *)
Definition subNumber (x : number) (n : Z) : number := addNumber x (- n).

(** [x + n] where [x] was read from an array slot ([None] is [undefined])
    and [n] is an integer. *)
Definition plus (x : option number) (n : Z) : number :=
  match x with
  | Some y => addNumber y n
  | None => NaN
  end.

(** The result of [Array.prototype.indexOf]: [-1] or a position. *)
Inductive jsindex :=
  | Minus1
  | Idx (n : nat).

#[global] Instance jsindex_eq_dec : EqDecision jsindex.
Proof. solve_decision. Defined.

Module JsArray.

Record t (A : Type) := mk {
  elems : list (option A);   (* slots [0 .. length-1]; [None] is a hole *)
  minus1 : option A          (* the own property ["-1"], if it was written *)
}.
Arguments mk {A} _ _.
Arguments elems {A} _.
Arguments minus1 {A} _.

(** A dense array, as built by [map] and [concat]. *)
Definition of_list {A} (l : list A) : t A := mk (Some <$> l) None.

(** [a.length] *)
Definition length {A} (a : t A) : nat := List.length (elems a).

(** [a[i]]; [None] is [undefined]. *)
Definition get {A} (a : t A) (i : jsindex) : option A :=
  match i with
  | Minus1 => minus1 a
  | Idx n => mjoin (elems a !! n)
  end.

(** Writing slot [n]: in range the slot is replaced, out of range the
    array is extended with holes up to [n]. *)
Definition store {A} (l : list (option A)) (n : nat) (v : A) : list (option A) :=
  if decide (n < List.length l) then <[n := Some v]> l
  else l ++ replicate (n - List.length l) None ++ [Some v].

(** [a[i] = v] *)
Definition set {A} (a : t A) (i : jsindex) (v : A) : t A :=
  match i with
  | Minus1 => mk (elems a) (Some v)
  | Idx n => mk (store (elems a) n v) (minus1 a)
  end.

(** The elements visited by [filter], [map] and [forEach]: holes and
    non-index properties are skipped. *)
Definition visited {A} (a : t A) : list A := omap id (elems a).

End JsArray.

(** [!x] for [x] read from a [boolean[]]: [undefined] is falsy. *)
Definition not_ (x : option bool) : bool :=
  match x with
  | Some true => false
  | Some false => true
  | None => true
  end.

(** ** The classes of the program *)

(** A reference to a [VirtualPeer] object. *)
Definition PeerRef := nat.

Module Message.
Inductive kind := resource | snapshot.
Record t := mk { type : kind; value : Z }.
End Message.

#[global] Instance Message_kind_eq_dec : EqDecision Message.kind.
Proof. solve_decision. Defined.
#[global] Instance Message_eq_dec : EqDecision Message.t.
Proof. solve_decision. Defined.

Module VirtualConnection.
Record t := mk { local : PeerRef; remote : PeerRef; delay : Z }.
End VirtualConnection.

#[global] Instance VirtualConnection_eq_dec : EqDecision VirtualConnection.t.
Proof. solve_decision. Defined.

Module SnapshotTask.
Record t := mk {
  id : Z;
  receiveStatus : JsArray.t bool;
  capturedResources : JsArray.t number
}.
End SnapshotTask.

(** What a method of a peer does to the outside: [k.send(message)] and the
    two lines a peer logs for a snapshot. *)
Inductive Effect :=
  | Send (k : VirtualConnection.t) (message : Message.t)
  | Completed (id : Z) (capturedResources : JsArray.t number)
  | Initiated (id : Z).

(** How a method call ends. *)
Inductive Outcome :=
  | Returned
  | ThrewTypeError.

Module VirtualPeer.

Record t := mk {
  name : string;
  resources : number;
  connections : list VirtualConnection.t;
  snapshotTasks : list SnapshotTask.t
}.

(** [new VirtualPeer(name, resources)] *)
Definition new (name : string) (resources : Z) : t := mk name (Num resources) [] [].

Definition with_resources (p : t) (r : number) : t :=
  mk (name p) r (connections p) (snapshotTasks p).
Definition with_snapshotTasks (p : t) (ts : list SnapshotTask.t) : t :=
  mk (name p) (resources p) (connections p) ts.
Definition with_connections (p : t) (ks : list VirtualConnection.t) : t :=
  mk (name p) (resources p) ks (snapshotTasks p).

(** [this.connections.map(k => k.remote).indexOf(remote)]; an absent
    [remote] is [undefined], which no element of the array equals. *)
Definition remoteIndex (p : t) (remote : option PeerRef) : jsindex :=
  match remote with
  | None => Minus1
  | Some r =>
      match list_find (λ x, x = r) (VirtualConnection.remote <$> connections p) with
      | Some (i, _) => Idx i
      | None => Minus1
      end
  end.

(** [new SnapshotTask(id)] with both vectors initialised (lines 131-138). *)
Definition newSnapshotTask (p : t) (id : Z) : SnapshotTask.t :=
  SnapshotTask.mk id
    (JsArray.of_list ((λ _, false) <$> connections p))
    (JsArray.of_list (((λ _, Num 0) <$> connections p) ++ [resources p])).

(** The task list after lines 127-142, with the position of the task the
    variable [snapshot] points to, and that task. *)
Definition findOrCreate (p : t) (id : Z) : list SnapshotTask.t * nat * SnapshotTask.t :=
  match list_find (λ k, SnapshotTask.id k = id) (snapshotTasks p) with
  | Some (i, snapshot) => (snapshotTasks p, i, snapshot)
  | None =>
      let snapshot := newSnapshotTask p id in
      (snapshotTasks p ++ [snapshot], List.length (snapshotTasks p), snapshot)
  end.

(** [this.connections.map(k => k.send(message))] *)
Definition sendAll (p : t) (message : Message.t) : list Effect :=
  (λ k, Send k message) <$> connections p.

(** [snapshot.receiveStatus.filter(k => !k).length] *)
Definition listening (snapshot : SnapshotTask.t) : nat :=
  List.length (filter (λ k, k = false)
                 (JsArray.visited (SnapshotTask.receiveStatus snapshot))).

(** The body of [snapshotTasks.map(task => ...)] in lines 188-192. *)
Definition credit (i : jsindex) (amount : Z) (task : SnapshotTask.t) : SnapshotTask.t :=
  if not_ (JsArray.get (SnapshotTask.receiveStatus task) i) then
    SnapshotTask.mk (SnapshotTask.id task) (SnapshotTask.receiveStatus task)
      (JsArray.set (SnapshotTask.capturedResources task) i
         (plus (JsArray.get (SnapshotTask.capturedResources task) i) amount))
  else task.

Definition handleMessage (p : t) (message : Message.t) (remote : option PeerRef)
  : t * list Effect :=
  match Message.type message with
  | Message.snapshot =>
      let '(tasks, pos, snapshot) := findOrCreate p (Message.value message) in
      match remote with
      | None => (with_snapshotTasks p tasks, sendAll p message)
      | Some _ =>
          let i := remoteIndex p remote in
          if not_ (JsArray.get (SnapshotTask.receiveStatus snapshot) i) then
            let snapshot' :=
              SnapshotTask.mk (SnapshotTask.id snapshot)
                (JsArray.set (SnapshotTask.receiveStatus snapshot) i true)
                (SnapshotTask.capturedResources snapshot) in
            let p' := with_snapshotTasks p (<[pos := snapshot']> tasks) in
            if decide (listening snapshot' = 0)
            then (p', [Completed (SnapshotTask.id snapshot')
                         (SnapshotTask.capturedResources snapshot')])
            else (p', sendAll p message)
          else (with_snapshotTasks p tasks, [])
      end
  | Message.resource =>
      let p1 := with_resources p (addNumber (resources p) (Message.value message)) in
      let i := remoteIndex p remote in
      (with_snapshotTasks p1 (credit i (Message.value message) <$> snapshotTasks p1), [])
  end.

Definition initiateSnapshot (p : t) (id : Z) : t * list Effect :=
  let '(p', effects) := handleMessage p (Message.mk Message.snapshot id) None in
  (p', Initiated id :: effects).

(** The debit comes first; [find] yields [undefined] when no connection
    leads to [receiver], and calling [.send] on it throws. *)
Definition initiatePayment (p : t) (receiver : PeerRef) (amount : Z)
  : t * list Effect * Outcome :=
  let p' := with_resources p (subNumber (resources p) amount) in
  let message := Message.mk Message.resource amount in
  match list_find (λ k, VirtualConnection.remote k = receiver) (connections p') with
  | Some (_, k) => (p', [Send k message], Returned)
  | None => (p', [], ThrewTypeError)
  end.

End VirtualPeer.

(** ** The simulation: the peer store, the timer queue and the console *)

(** The lines written by [VirtualConnection.log] and [VirtualPeer.log]. *)
Inductive LogEntry :=
  | LogSent (k : VirtualConnection.t) (message : Message.t)
  | LogReceived (k : VirtualConnection.t) (message : Message.t)
  | LogCompleted (peer : PeerRef) (id : Z) (capturedResources : JsArray.t number)
  | LogInitiated (peer : PeerRef) (id : Z).

(** A pending [setTimeout] callback of [VirtualConnection.send]: the closure
    holds the connection and the message. *)
Record Timer := mkTimer {
  due : Z;
  conn : VirtualConnection.t;
  msg : Message.t
}.

(** The delay [setTimeout] really uses: Node.js replaces a delay below 1 or
    above 2^31 - 1 by 1. *)
Definition timeout (delay : Z) : Z :=
  if decide (1 ≤ delay ≤ 2147483647)%Z then delay else 1%Z.

(** The delay a pending timer was set with: [send] passes [this.delay]. *)
Definition delayOf (tm : Timer) : Z :=
  timeout (VirtualConnection.delay (conn tm)).

Module World.

Record t := mk {
  peers : gmap PeerRef VirtualPeer.t;  (* the heap of peer objects *)
  clock : Z;                           (* milliseconds *)
  timers : list Timer;                 (* pending timers, oldest first *)
  console : list LogEntry              (* oldest first *)
}.

Definition empty : t := mk ∅ 0 [] [].

Definition with_peers (w : t) (ps : gmap PeerRef VirtualPeer.t) : t :=
  mk ps (clock w) (timers w) (console w).
Definition with_clock (w : t) (c : Z) : t :=
  mk (peers w) c (timers w) (console w).
Definition with_timers (w : t) (ts : list Timer) : t :=
  mk (peers w) (clock w) ts (console w).

(** [k.send(message)]: the log line, then [setTimeout]. *)
Definition send (w : t) (k : VirtualConnection.t) (message : Message.t) : t :=
  mk (peers w) (clock w)
     (timers w ++ [mkTimer (clock w + timeout (VirtualConnection.delay k)) k message])
     (console w ++ [LogSent k message]).

Definition log (w : t) (e : LogEntry) : t :=
  mk (peers w) (clock w) (timers w) (console w ++ [e]).

(** The effects of a method of peer [self], in the order they happened. *)
Definition perform (self : PeerRef) (w : t) (e : Effect) : t :=
  match e with
  | Send k message => send w k message
  | Completed id v => log w (LogCompleted self id v)
  | Initiated id => log w (LogInitiated self id)
  end.

Definition performAll (self : PeerRef) (w : t) (es : list Effect) : t :=
  foldl (perform self) w es.

(** [a.initiateSnapshot(id)] *)
Definition initiateSnapshot (w : t) (a : PeerRef) (id : Z) : t :=
  match peers w !! a with
  | Some p =>
      let '(p', es) := VirtualPeer.initiateSnapshot p id in
      performAll a (with_peers w (<[a := p']> (peers w))) es
  | None => w
  end.

(** [a.initiatePayment(receiver, amount)] *)
Definition initiatePayment (w : t) (a receiver : PeerRef) (amount : Z) : t * Outcome :=
  match peers w !! a with
  | Some p =>
      let '(p', es, o) := VirtualPeer.initiatePayment p receiver amount in
      (performAll a (with_peers w (<[a := p']> (peers w))) es, o)
  | None => (w, Returned)
  end.

(** The callback of [send]: the log line, then
    [this.remote.handleMessage(message, this.local)]. *)
Definition deliver (w : t) (tm : Timer) : t :=
  let w1 := log w (LogReceived (conn tm) (msg tm)) in
  let r := VirtualConnection.remote (conn tm) in
  match peers w1 !! r with
  | Some p =>
      let '(p', es) :=
        VirtualPeer.handleMessage p (msg tm) (Some (VirtualConnection.local (conn tm))) in
      performAll r (with_peers w1 (<[r := p']> (peers w1))) es
  | None => w1
  end.

(** [k.push(...)] on the connections of peer [a]. *)
Definition push (w : t) (a : PeerRef) (k : VirtualConnection.t) : t :=
  match peers w !! a with
  | Some p =>
      with_peers w (<[a := VirtualPeer.with_connections p (VirtualPeer.connections p ++ [k])]>
                      (peers w))
  | None => w
  end.

(** [connect(a, b, delayab, delayba)] *)
Definition connect (w : t) (a b : PeerRef) (delayab delayba : Z) : t :=
  push (push w a (VirtualConnection.mk a b delayab)) b (VirtualConnection.mk b a delayba).

(** [new VirtualPeer(name, resources)]: the object gets a fresh reference. *)
Definition alloc (w : t) (name : string) (resources : Z) : PeerRef * t :=
  let r := fresh (dom (peers w)) in
  (r, with_peers w (<[r := VirtualPeer.new name resources]> (peers w))).

Definition balance (w : t) (a : PeerRef) : number :=
  from_option VirtualPeer.resources (Num 0) (peers w !! a).

(** One step of the program: the driver creates or connects peers or calls
    one of the two operations, time passes, or a timer fires. A timer may
    fire late, never early, and it never overtakes an older timer that was
    set with the same delay (Node.js keeps the timers of one delay in a list
    and runs them in the order they were added); timers set with different
    delays fire in any order once they are due. *)
Inductive step : t → t → Prop :=
  | step_new w name resources :
      step w (alloc w name resources).2
  | step_connect w a b delayab delayba :
      is_Some (peers w !! a) → is_Some (peers w !! b) →
      step w (connect w a b delayab delayba)
  | step_initiateSnapshot w a id :
      is_Some (peers w !! a) →
      step w (initiateSnapshot w a id)
  | step_initiatePayment w a receiver amount :
      is_Some (peers w !! a) → is_Some (peers w !! receiver) →
      step w (initiatePayment w a receiver amount).1
  | step_tick w c :
      (clock w ≤ c)%Z →
      step w (with_clock w c)
  | step_fire w older tm newer :
      timers w = older ++ tm :: newer →
      (due tm ≤ clock w)%Z →
      Forall (λ tm', delayOf tm' ≠ delayOf tm) older →
      step w (deliver (with_timers w (older ++ newer)) tm).

(** The worlds the program can reach from its start. *)
Inductive reachable : t → Prop :=
  | reachable_empty : reachable empty
  | reachable_step w w' : reachable w → step w w' → reachable w'.




End World.

(** ** Vocabulary of the properties *)

Abbreviation hasId id := (λ k : SnapshotTask.t, SnapshotTask.id k = id).

Definition marker (id : Z) : Message.t := Message.mk Message.snapshot id.
Definition transfer (amount : Z) : Message.t := Message.mk Message.resource amount.

(** Every flag the array holds at a position is [true]. *)
Definition AllClosed (receiveStatus : JsArray.t bool) : Prop :=
  ∀ j b, JsArray.get receiveStatus (Idx j) = Some b → b = true.

(** The public methods of a peer, as they can be called one after the other:
    by the driver, or by a connection delivering a message. *)
Inductive Call :=
  | HandleMessage (message : Message.t) (remote : option PeerRef)
  | InitiateSnapshot (id : Z)
  | InitiatePayment (receiver : PeerRef) (amount : Z).

Definition call (p : VirtualPeer.t) (c : Call) : VirtualPeer.t * list Effect :=
  match c with
  | HandleMessage message remote => VirtualPeer.handleMessage p message remote
  | InitiateSnapshot id => VirtualPeer.initiateSnapshot p id
  | InitiatePayment receiver amount => (VirtualPeer.initiatePayment p receiver amount).1
  end.

(** A sequence of calls, with all their effects in order. *)
Fixpoint calls (p : VirtualPeer.t) (cs : list Call) : VirtualPeer.t * list Effect :=
  match cs with
  | [] => (p, [])
  | c :: cs =>
      let '(p1, es1) := call p c in
      let '(p2, es2) := calls p1 cs in
      (p2, es1 ++ es2)
  end.

Definition ids (p : VirtualPeer.t) : list Z :=
  SnapshotTask.id <$> VirtualPeer.snapshotTasks p.

(** An array of [n + 1] slots, the last one holding [b]. *)
Definition shaped (n : nat) (b : number) (v : JsArray.t number) : Prop :=
  JsArray.length v = n + 1 ∧ JsArray.get v (Idx n) = Some b.

(** The peer has [n] connections and a task for snapshot [id], and the
    vector of each task for [id] is [shaped]. *)
Definition settled (n : nat) (b : number) (id : Z) (p : VirtualPeer.t) : Prop :=
  length (VirtualPeer.connections p) = n
  ∧ id ∈ ids p
  ∧ Forall (λ t, SnapshotTask.id t = id → shaped n b (SnapshotTask.capturedResources t))
      (VirtualPeer.snapshotTasks p).


(** ** Vocabulary of the further properties *)

Definition sumZ (l : list Z) : Z := foldr Z.add 0%Z l.

(** An integer of magnitude at most 2^53: every such integer is a binary64
    value, and a sum that stays in this range is not rounded. *)
Definition safe (z : Z) : Prop := (- 9007199254740992 ≤ z ≤ 9007199254740992)%Z.

(** Starting from [b] and adding the integers of [ds] one after the other,
    every intermediate sum is [safe]. *)
Fixpoint safeFrom (b : Z) (ds : list Z) : Prop :=
  match ds with
  | [] => True
  | d :: ds => safe (b + d) ∧ safeFrom (b + d) ds
  end.

(** The integer a number holds; an infinity or [NaN] holds none. *)
Definition valueOf (x : number) : Z :=
  match x with
  | Num z => z
  | _ => 0%Z
  end.

(** What a call does to the balance: a transfer received adds its amount, a
    payment takes its amount away (also when it throws), a marker does
    nothing. *)
Definition delta (c : Call) : Z :=
  match c with
  | HandleMessage message _ =>
      match Message.type message with
      | Message.resource => Message.value message
      | Message.snapshot => 0%Z
      end
  | InitiateSnapshot _ => 0%Z
  | InitiatePayment _ amount => (- amount)%Z
  end.

(** The balance after a call on a peer whose balance was [x]: a transfer
    received is added and a payment is subtracted, as JavaScript does it. *)
Definition balanceAfter (x : number) (c : Call) : number :=
  match c with
  | HandleMessage message _ =>
      match Message.type message with
      | Message.resource => addNumber x (Message.value message)
      | Message.snapshot => x
      end
  | InitiateSnapshot _ => x
  | InitiatePayment _ amount => subNumber x amount
  end.

(** The call is a message from a peer [p] has a connection to, or needs no
    sender: a marker without sender, or a call of the driver. *)
Definition fromNeighbour (p : VirtualPeer.t) (c : Call) : Prop :=
  match c with
  | HandleMessage message remote =>
      (Message.type message = Message.snapshot ∧ remote = None)
      ∨ ∃ i, VirtualPeer.remoteIndex p remote = Idx i
  | _ => True
  end.

(** The flags at positions [0 .. n-1] are all [true]. *)
Definition closedFor (n : nat) (t : SnapshotTask.t) : Prop :=
  ∀ i, i < n → JsArray.get (SnapshotTask.receiveStatus t) (Idx i) = Some true.

(** The amount the call brings in over the connection at position [i]. *)
Definition creditedAt (p : VirtualPeer.t) (i : nat) (c : Call) : Z :=
  match c with
  | HandleMessage message remote =>
      match Message.type message with
      | Message.resource =>
          if decide (VirtualPeer.remoteIndex p remote = Idx i)
          then Message.value message else 0%Z
      | Message.snapshot => 0%Z
      end
  | _ => 0%Z
  end.

(** The call is a marker of snapshot [id] arriving over the connection at
    position [i]. *)
Definition closes (p : VirtualPeer.t) (id : Z) (i : nat) (c : Call) : Prop :=
  match c with
  | HandleMessage message remote =>
      Message.type message = Message.snapshot
      ∧ Message.value message = id
      ∧ VirtualPeer.remoteIndex p remote = Idx i
  | _ => False
  end.

(** An effect that sends a message. *)
Definition isSend (e : Effect) : Prop :=
  match e with
  | Send _ _ => True
  | _ => False
  end.

(** The effect is the completion log of snapshot [id]. *)
Definition completes (id : Z) (e : Effect) : Prop :=
  match e with
  | Completed id' _ => id' = id
  | _ => False
  end.

#[global] Instance completes_dec id e : Decision (completes id e).
Proof. destruct e; simpl; apply _. Defined.

(** The task has a flag at every position [0 .. n-1]. *)
Definition dense (n : nat) (t : SnapshotTask.t) : Prop :=
  ∀ i, i < n → is_Some (JsArray.get (SnapshotTask.receiveStatus t) (Idx i)).

(** Every task of the peer has a flag for each of the peer's connections. *)
Definition flagged (p : VirtualPeer.t) : Prop :=
  Forall (dense (length (VirtualPeer.connections p))) (VirtualPeer.snapshotTasks p).

(** A method call [c] on the peer object [a], with its effects carried out
    in the simulation. *)
Definition invoke (w : World.t) (a : PeerRef) (c : Call) : World.t :=
  match World.peers w !! a with
  | Some p =>
      World.performAll a
        (World.with_peers w (<[a := (call p c).1]> (World.peers w))) (call p c).2
  | None => w
  end.

(** The timers the [send]s among some effects set at time [clock]. *)
Definition sendTimers (clock : Z) (es : list Effect) : list Timer :=
  omap (λ e, match e with
             | Send k message =>
                 Some (mkTimer (clock + timeout (VirtualConnection.delay k)) k message)
             | _ => None
             end) es.

(** The connections of the peer object [a], if there is one. *)
Definition links (w : World.t) (a : PeerRef) : option (list VirtualConnection.t) :=
  VirtualPeer.connections <$> World.peers w !! a.

(** Every connection belongs to the peer it starts from, leads to a peer
    that exists, and that peer has a connection back. *)
Definition linked (w : World.t) : Prop :=
  ∀ a ks k,
    links w a = Some ks → k ∈ ks →
    VirtualConnection.local k = a
    ∧ ∃ ks', links w (VirtualConnection.remote k) = Some ks'
             ∧ ∃ k', k' ∈ ks' ∧ VirtualConnection.remote k' = a.

(** Every pending timer delivers on a connection of an existing peer. *)
Definition timersLinked (w : World.t) : Prop :=
  ∀ tm,
    tm ∈ World.timers w →
    ∃ ks, links w (VirtualConnection.local (conn tm)) = Some ks ∧ conn tm ∈ ks.

(** The amount a pending timer carries: that of a transfer, nothing for a
    marker. *)
Definition carried (tm : Timer) : Z :=
  match Message.type (msg tm) with
  | Message.resource => Message.value (msg tm)
  | Message.snapshot => 0%Z
  end.

(** The resources on their way. *)
Definition inFlight (ts : list Timer) : Z := sumZ (carried <$> ts).

(** The sum of the integer balances of all peers. *)
Definition held (ps : gmap PeerRef VirtualPeer.t) : Z :=
  map_fold (λ _ p acc, (valueOf (VirtualPeer.resources p) + acc)%Z) 0%Z ps.

(** All resources of the simulation: held by the peers or on their way. *)
Definition total (w : World.t) : Z :=
  (held (World.peers w) + inFlight (World.timers w))%Z.

(** Each peer has at most one task per snapshot id. *)
Definition oneTaskPerId (w : World.t) : Prop :=
  ∀ a p, World.peers w !! a = Some p → NoDup (ids p).

(** ** The scenario of the driver

    Three peers [i], [j], [k] with 100 each, connected as the driver does:
    [connect(i, j, 1000, 1300)], [connect(j, k, 2100, 2400)],
    [connect(i, k, 1600, 1900)]. The references are 0, 1 and 2. *)

Definition threePeers : World.t :=
  let w := (World.alloc World.empty "i"%string 100).2 in
  let w := (World.alloc w "j"%string 100).2 in
  let w := (World.alloc w "k"%string 100).2 in
  let w := World.connect w 0 1 1000 1300 in
  let w := World.connect w 1 2 2100 2400 in
  World.connect w 0 2 1600 1900.

Definition peer_j : VirtualPeer.t :=
  VirtualPeer.mk "j"%string (Num 100)
    [VirtualConnection.mk 1 0 1300; VirtualConnection.mk 1 2 2100] [].

Definition peer_k : VirtualPeer.t :=
  VirtualPeer.mk "k"%string (Num 100)
    [VirtualConnection.mk 2 1 2400; VirtualConnection.mk 2 0 1900] [].

(** [k] after the marker of snapshot 201 arrived from [i]: it still listens
    to the channel from [j]. *)
Definition peer_k_listening : VirtualPeer.t :=
  (VirtualPeer.handleMessage peer_k (marker 201) (Some 0)).1.

(** A run: [i] initiates snapshot 201 at time 0, [j] pays 35 to [k] at time
    700, and at time 1000 the marker from [i] reaches [j]. *)
Definition run1 : World.t := World.initiateSnapshot threePeers 0 201.
Definition run2 : World.t := World.with_clock run1 700.
Definition run3 : World.t := (World.initiatePayment run2 1 2 35).1.
Definition run4 : World.t := World.with_clock run3 1000.
Definition markerToJ : Timer :=
  mkTimer 1000 (VirtualConnection.mk 0 1 1000) (marker 201).
Definition run5 : World.t :=
  World.deliver
    (World.with_timers run4
       ([] ++ [mkTimer 1600 (VirtualConnection.mk 0 2 1600) (marker 201);
               mkTimer 2800 (VirtualConnection.mk 1 2 2100) (transfer 35)]))
    markerToJ.

(** [k] after the marker of [j] arrived as well: its task for 201 is
    complete. *)
Definition peer_k_done : VirtualPeer.t :=
  (VirtualPeer.handleMessage peer_k_listening (marker 201) (Some 1)).1.

(** A peer whose only connection leads to [i]. *)
Definition peer_leaf : VirtualPeer.t :=
  VirtualPeer.mk "l"%string (Num 50) [VirtualConnection.mk 3 0 100] [].

(** Calls on [k] while it waits for the marker of [j]: two transfers from
    [j], one from [i], a duplicate marker from [i], a payment and the marker
    of another snapshot arriving from [j]. *)
Definition callsWhileListening : list Call :=
  [HandleMessage (transfer 35) (Some 1);
   HandleMessage (transfer 4) (Some 0);
   HandleMessage (marker 201) (Some 0);
   InitiatePayment 0 10;
   HandleMessage (marker 301) (Some 1);
   HandleMessage (transfer 7) (Some 1)].

(** ** Balances at the edge of exact arithmetic *)

(** 2^53: from here on binary64 does not hold every integer. *)
Definition two53 : Z := 9007199254740992.

(** A peer with one connection, to [j], that initiated snapshot 7 and then
    received 2^53 from [j]: its balance and the slot of [j] hold 2^53. *)
Definition peer_big : VirtualPeer.t :=
  (calls (VirtualPeer.mk "b"%string (Num 0) [VirtualConnection.mk 2 1 2400] [])
     [InitiateSnapshot 7; HandleMessage (transfer two53) (Some 1)]).1.

(** Two connected peers with the balances 0 and 1. *)
Definition twoPeers : World.t :=
  let w := (World.alloc World.empty "a"%string 0).2 in
  let w := (World.alloc w "b"%string 1).2 in
  World.connect w 0 1 10 10.

(** One peer with the balance -2^53 and no connection. *)
Definition debtor : World.t := (World.alloc World.empty "d"%string (- two53)).2.

(** The machine's binary64 value of an integer below 2^63 in magnitude
    that binary64 holds. *)
Definition toFloat (z : Z) : PrimFloat.float :=
  if decide (0 ≤ z)%Z then PrimFloat.of_uint63 (Uint63.of_Z z)
  else PrimFloat.opp (PrimFloat.of_uint63 (Uint63.of_Z (- z))).

(** [addNumber (Num x) y] is the machine's [x + y]. *)
Definition agrees (x y : Z) : bool :=
  match addNumber (Num x) y with
  | Num m => PrimFloat.eqb (PrimFloat.add (toFloat x) (toFloat y)) (toFloat m)
  | _ => false
  end.

(** Integers that binary64 holds, around the powers of two where its
    spacing changes, of both signs. *)
Definition sampleNumbers : list Z :=
  z ← [0; 1; 2; 3; 5; 7; 8; 9; 15; 16; 17; 100; 1023; 1024; 1025;
       2 ^ 52; 2 ^ 52 + 1; 2 ^ 53 - 1; 2 ^ 53; 2 ^ 53 + 2; 2 ^ 53 + 4;
       2 ^ 54 - 2; 2 ^ 54; 2 ^ 54 + 4; 2 ^ 55 - 4; 2 ^ 55; 2 ^ 55 + 8;
       2 ^ 60; 2 ^ 61 + 1024]%Z;
  [z; (- z)%Z].

(** * Properties *)

(** ** Numbers *)

(** An integer of magnitude at most 2^53 is a binary64 value: rounding
    keeps it. *)
Lemma round64_safe z : safe z → round64 z = Num z.
Proof.
  unfold safe, round64. intros Hz. cbv zeta.
  change (2 ^ 53)%Z with 9007199254740992%Z.
  destruct (decide (Z.abs z < 9007199254740992)%Z) as [|Hbig]; [done|].
  assert (Hcases : z = 9007199254740992%Z ∨ z = (- 9007199254740992)%Z) by lia.
  destruct Hcases as [-> | ->]; reflexivity.
Qed.

Lemma addNumber_safe z n : safe (z + n) → addNumber (Num z) n = Num (z + n).
Proof. apply round64_safe. Qed.

Lemma subNumber_safe z n : safe (z - n) → subNumber (Num z) n = Num (z - n).
Proof. intros Hz. unfold subNumber. by apply addNumber_safe. Qed.

(** Above 2^53 sums are rounded, ties to the even significand, and become
    infinite past the largest binary64 value. *)
Example round64_values :
  round64 (two53 + 1) = Num two53
  ∧ round64 (two53 + 2) = Num (two53 + 2)
  ∧ round64 (two53 + 3) = Num (two53 + 4)
  ∧ round64 (- two53 - 1) = Num (- two53)
  ∧ round64 (2 ^ 54 + 2) = Num (2 ^ 54)
  ∧ round64 (2 ^ 54 + 6) = Num (2 ^ 54 + 8)
  ∧ round64 (2 ^ 1024 - 2 ^ 971) = Num (2 ^ 1024 - 2 ^ 971)
  ∧ round64 (2 ^ 1024 - 2 ^ 970) = PosInf
  ∧ round64 (- 2 ^ 1024) = NegInf.
Proof. split_and!; by vm_compute. Qed.

(** Every sample integer is a binary64 value, and on every pair of them
    [addNumber] gives what the machine's binary64 addition gives. *)
Example addNumber_is_binary64_addition :
  forallb (λ z, bool_decide (round64 z = Num z)) sampleNumbers = true
  ∧ forallb (λ x, forallb (agrees x) sampleNumbers) sampleNumbers = true.
Proof. split; by vm_compute. Qed.

Lemma plus_safe z n : safe (z + n) → plus (Some (Num z)) n = Num (z + n).
Proof. apply round64_safe. Qed.

(** ** Arrays *)

Section JsArrayFacts.
Context {A : Type}.
Implicit Types (a : JsArray.t A) (l : list (option A)) (v : A).

Lemma store_lookup_eq l n v : JsArray.store l n v !! n = Some (Some v).
Proof.
  unfold JsArray.store. case_decide as Hn.
  - by apply list_lookup_insert_eq.
  - rewrite lookup_app_r by lia.
    rewrite lookup_app_r by (rewrite length_replicate; lia).
    rewrite length_replicate.
    by replace (n - length l - (n - length l)) with 0 by lia.
Qed.

Lemma store_lookup_ne l n m v :
  n ≠ m → mjoin (JsArray.store l n v !! m) = mjoin (l !! m).
Proof.
  intros Hnm. unfold JsArray.store. case_decide as Hn.
  - by rewrite list_lookup_insert_ne.
  - destruct (decide (m < length l)) as [Hm|Hm].
    + by rewrite lookup_app_l.
    + rewrite (lookup_ge_None_2 l m) by lia.
      rewrite lookup_app_r by lia.
      destruct (decide (m - length l < n - length l)) as [Hh|Hh].
      * rewrite lookup_app_l by (rewrite length_replicate; lia).
        by rewrite lookup_replicate_2.
      * rewrite lookup_app_r by (rewrite length_replicate; lia).
        rewrite length_replicate.
        rewrite lookup_ge_None_2; [done|]. simpl. lia.
Qed.

Lemma store_length_lt l n v :
  n < length l → length (JsArray.store l n v) = length l.
Proof.
  intros Hn. unfold JsArray.store. rewrite decide_True by done.
  apply length_insert.
Qed.

Lemma store_lookup_lt l n m v :
  n < length l → n ≠ m → JsArray.store l n v !! m = l !! m.
Proof.
  intros Hn Hnm. unfold JsArray.store. rewrite decide_True by done.
  by apply list_lookup_insert_ne.
Qed.

Lemma get_set_eq a i v : JsArray.get (JsArray.set a i v) i = Some v.
Proof. destruct i as [|n]; simpl; [done|]. by rewrite store_lookup_eq. Qed.

Lemma get_set_ne a i j v :
  i ≠ j → JsArray.get (JsArray.set a i v) j = JsArray.get a j.
Proof.
  intros Hij. destruct i as [|n], j as [|m]; simpl; try done.
  apply store_lookup_ne. congruence.
Qed.

Lemma get_Idx_Some a n v :
  JsArray.get a (Idx n) = Some v → n < length (JsArray.elems a).
Proof.
  simpl. intros Hg. apply lookup_lt_is_Some.
  destruct (JsArray.elems a !! n); [eauto|done].
Qed.

Lemma get_of_list (l : list A) n : JsArray.get (JsArray.of_list l) (Idx n) = l !! n.
Proof.
  simpl. rewrite list_lookup_fmap. by destruct (l !! n).
Qed.

End JsArrayFacts.


Lemma listening_zero (snapshot : SnapshotTask.t) :
  VirtualPeer.listening snapshot = 0 ↔ AllClosed (SnapshotTask.receiveStatus snapshot).
Proof.
  unfold VirtualPeer.listening, AllClosed, JsArray.visited.
  set (l := JsArray.elems (SnapshotTask.receiveStatus snapshot)).
  split.
  - intros Hnil%nil_length_inv j b Hget. simpl in Hget. fold l in Hget.
    destruct (l !! j) as [[b'|]|] eqn:Hl; simpl in Hget; try done.
    injection Hget as ->. destruct b; [done|].
    exfalso. eapply (filter_nil_not_elem_of _ _ false Hnil); [done|].
    apply list_elem_of_omap. exists (Some false). split; [|done].
    by eapply list_elem_of_lookup_2.
  - intros Hall.
    destruct (filter _ (omap id l)) as [|b rest] eqn:Hf; [done|exfalso].
    assert (Hb : b ∈ filter (λ k : bool, k = false) (omap id l))
      by (rewrite Hf; left).
    apply list_elem_of_filter in Hb as [-> Hb].
    apply list_elem_of_omap in Hb as (x & Hx & Hid). simpl in Hid. subst x.
    apply list_elem_of_lookup_1 in Hx as [j Hj].
    specialize (Hall j false). simpl in Hall. fold l in Hall.
    rewrite Hj in Hall. by specialize (Hall eq_refl).
Qed.

(** ** Finding the task of a snapshot *)


Lemma list_find_replace {B} (P : B → Prop) `{!∀ x, Decision (P x)} (l : list B) i x y :
  list_find P l = Some (i, x) → P y → list_find P (<[i := y]> l) = Some (i, y).
Proof.
  intros (Hl & _ & Hleast)%list_find_Some Hy.
  apply list_find_Some. split_and!; [|done|].
  - apply list_lookup_insert_eq. by eapply lookup_lt_Some.
  - intros j z Hj Hji. rewrite list_lookup_insert_ne in Hj by lia. eauto.
Qed.

Lemma list_find_snoc {B} (P : B → Prop) `{!∀ x, Decision (P x)} (l : list B) y :
  list_find P l = None → P y → list_find P (l ++ [y]) = Some (length l, y).
Proof.
  intros Hnone Hy. apply list_find_app_Some. right. split_and!; [lia|done|].
  replace (length l - length l) with 0 by lia. simpl. by rewrite decide_True.
Qed.

Lemma findOrCreate_found p id tasks pos snapshot :
  VirtualPeer.findOrCreate p id = (tasks, pos, snapshot) →
  list_find (hasId id) tasks = Some (pos, snapshot).
Proof.
  unfold VirtualPeer.findOrCreate.
  destruct (list_find _ (VirtualPeer.snapshotTasks p)) as [[i s]|] eqn:Hf.
  - by intros [= <- <- <-].
  - intros [= <- <- <-]. by apply list_find_snoc.
Qed.

Lemma findOrCreate_cases p id tasks pos snapshot :
  VirtualPeer.findOrCreate p id = (tasks, pos, snapshot) →
  (list_find (hasId id) (VirtualPeer.snapshotTasks p) = Some (pos, snapshot)
     ∧ tasks = VirtualPeer.snapshotTasks p)
  ∨ (list_find (hasId id) (VirtualPeer.snapshotTasks p) = None
     ∧ tasks = VirtualPeer.snapshotTasks p ++ [VirtualPeer.newSnapshotTask p id]
     ∧ pos = length (VirtualPeer.snapshotTasks p)
     ∧ snapshot = VirtualPeer.newSnapshotTask p id).
Proof.
  unfold VirtualPeer.findOrCreate.
  destruct (list_find _ (VirtualPeer.snapshotTasks p)) as [[i s]|] eqn:Hf.
  - intros [= <- <- <-]. by left.
  - intros [= <- <- <-]. by right.
Qed.

Lemma remoteIndex_known p S i :
  VirtualPeer.remoteIndex p (Some S) = Idx i →
  ∃ k, VirtualPeer.connections p !! i = Some k ∧ VirtualConnection.remote k = S.
Proof.
  unfold VirtualPeer.remoteIndex.
  destruct (list_find _ _) as [[j x]|] eqn:Hf; [|done].
  intros [= ->]. apply list_find_Some in Hf as (Hl & -> & _).
  rewrite list_lookup_fmap in Hl.
  destruct (VirtualPeer.connections p !! i) as [k|]; [|done].
  exists k. split; [done|]. by injection Hl.
Qed.

Lemma remoteIndex_cases p remote :
  VirtualPeer.remoteIndex p remote = Minus1
  ∨ ∃ i, VirtualPeer.remoteIndex p remote = Idx i ∧ i < length (VirtualPeer.connections p).
Proof.
  destruct remote as [S|]; [|by left].
  destruct (VirtualPeer.remoteIndex p (Some S)) as [|i] eqn:Hi; [by left|right].
  exists i. split; [done|].
  apply remoteIndex_known in Hi as (k & Hk & _). by eapply lookup_lt_Some.
Qed.

(** ** Marker handling *)


(** C1. A marker of snapshot [id] from a known sender [S] (the sender's
    connection is at position [i]) on a channel whose flag for [id] is still
    [false] (in the task found for [id], or in the task created for it) sets
    that flag to [true] and leaves the other flags, the vector and the
    balance alone; if all flags of the task are then [true] the peer logs the
    completion with the task's vector and sends nothing, otherwise it sends
    the marker on every connection. *)
Theorem C1_marker_closes_channel p id S i tasks pos snapshot :
  VirtualPeer.remoteIndex p (Some S) = Idx i →
  VirtualPeer.findOrCreate p id = (tasks, pos, snapshot) →
  JsArray.get (SnapshotTask.receiveStatus snapshot) (Idx i) = Some false →
  ∃ p' effects snapshot',
    VirtualPeer.handleMessage p (marker id) (Some S) = (p', effects)
    ∧ list_find (hasId id) (VirtualPeer.snapshotTasks p') = Some (pos, snapshot')
    ∧ VirtualPeer.snapshotTasks p' = <[pos := snapshot']> tasks
    ∧ JsArray.get (SnapshotTask.receiveStatus snapshot') (Idx i) = Some true
    ∧ (∀ j, j ≠ Idx i →
         JsArray.get (SnapshotTask.receiveStatus snapshot') j
         = JsArray.get (SnapshotTask.receiveStatus snapshot) j)
    ∧ JsArray.length (SnapshotTask.receiveStatus snapshot')
      = JsArray.length (SnapshotTask.receiveStatus snapshot)
    ∧ SnapshotTask.capturedResources snapshot' = SnapshotTask.capturedResources snapshot
    ∧ VirtualPeer.resources p' = VirtualPeer.resources p
    ∧ VirtualPeer.connections p' = VirtualPeer.connections p
    ∧ (AllClosed (SnapshotTask.receiveStatus snapshot') →
         effects = [Completed id (SnapshotTask.capturedResources snapshot')])
    ∧ (¬ AllClosed (SnapshotTask.receiveStatus snapshot') →
         effects = (λ k, Send k (marker id)) <$> VirtualPeer.connections p).
Proof.
  intros Hi Hfc Hflag.
  pose proof (findOrCreate_found _ _ _ _ _ Hfc) as Hfound.
  assert (Hid : SnapshotTask.id snapshot = id)
    by (by apply list_find_Some in Hfound as (_ & ? & _)).
  set (snapshot' := SnapshotTask.mk (SnapshotTask.id snapshot)
         (JsArray.set (SnapshotTask.receiveStatus snapshot) (Idx i) true)
         (SnapshotTask.capturedResources snapshot)).
  set (p' := VirtualPeer.with_snapshotTasks p (<[pos := snapshot']> tasks)).
  assert (Hrun : VirtualPeer.handleMessage p (marker id) (Some S)
                 = if decide (VirtualPeer.listening snapshot' = 0)
                   then (p', [Completed (SnapshotTask.id snapshot')
                                (SnapshotTask.capturedResources snapshot')])
                   else (p', VirtualPeer.sendAll p (marker id))).
  { unfold VirtualPeer.handleMessage, marker. cbn [Message.type Message.value].
    rewrite Hfc, Hi, Hflag. done. }
  assert (Hrest :
    list_find (hasId id) (VirtualPeer.snapshotTasks p') = Some (pos, snapshot')
    ∧ VirtualPeer.snapshotTasks p' = <[pos := snapshot']> tasks
    ∧ JsArray.get (SnapshotTask.receiveStatus snapshot') (Idx i) = Some true
    ∧ (∀ j, j ≠ Idx i →
         JsArray.get (SnapshotTask.receiveStatus snapshot') j
         = JsArray.get (SnapshotTask.receiveStatus snapshot) j)
    ∧ JsArray.length (SnapshotTask.receiveStatus snapshot')
      = JsArray.length (SnapshotTask.receiveStatus snapshot)
    ∧ SnapshotTask.capturedResources snapshot' = SnapshotTask.capturedResources snapshot
    ∧ VirtualPeer.resources p' = VirtualPeer.resources p
    ∧ VirtualPeer.connections p' = VirtualPeer.connections p).
  { split_and!; try done.
    - eapply list_find_replace; [exact Hfound|exact Hid].
    - apply get_set_eq.
    - intros j Hj. by apply get_set_ne.
    - apply store_length_lt. by eapply get_Idx_Some. }
  destruct (decide (VirtualPeer.listening snapshot' = 0)) as [Hz|Hnz].
  - exists p', [Completed (SnapshotTask.id snapshot')
                 (SnapshotTask.capturedResources snapshot')], snapshot'.
    split; [done|]. destruct Hrest as (?&?&?&?&?&?&?&?).
    split_and!; try done.
    + intros _. simpl. by rewrite Hid.
    + intros Hopen. by apply listening_zero in Hz.
  - exists p', (VirtualPeer.sendAll p (marker id)), snapshot'.
    split; [done|]. destruct Hrest as (?&?&?&?&?&?&?&?).
    split_and!; try done.
    intros Hall. by apply listening_zero in Hall.
Qed.

(** ** Calls on one peer *)


Lemma list_find_hasId_None (ts : list SnapshotTask.t) id :
  list_find (hasId id) ts = None ↔ id ∉ SnapshotTask.id <$> ts.
Proof.
  rewrite list_find_None, Forall_forall, list_elem_of_fmap. split.
  - intros Hno (t & Ht & Hin). by apply (Hno t).
  - intros Hno t Hin Ht. apply Hno. by exists t.
Qed.

Lemma credit_id i amount task :
  SnapshotTask.id (VirtualPeer.credit i amount task) = SnapshotTask.id task.
Proof. unfold VirtualPeer.credit. by destruct (not_ _). Qed.

Lemma credit_receiveStatus i amount task :
  SnapshotTask.receiveStatus (VirtualPeer.credit i amount task)
  = SnapshotTask.receiveStatus task.
Proof. unfold VirtualPeer.credit. by destruct (not_ _). Qed.

(** What a marker does to the task list: the task it works on is replaced
    by one with the same id and the same vector, or left as it is. *)
Lemma handleMessage_snapshot p id remote p' effects tasks pos snapshot :
  VirtualPeer.handleMessage p (marker id) remote = (p', effects) →
  VirtualPeer.findOrCreate p id = (tasks, pos, snapshot) →
  VirtualPeer.resources p' = VirtualPeer.resources p
  ∧ VirtualPeer.connections p' = VirtualPeer.connections p
  ∧ ∃ snapshot',
      VirtualPeer.snapshotTasks p' = <[pos := snapshot']> tasks
      ∧ SnapshotTask.id snapshot' = id
      ∧ SnapshotTask.capturedResources snapshot' = SnapshotTask.capturedResources snapshot
      ∧ (∀ v, Completed id v ∈ effects → v = SnapshotTask.capturedResources snapshot)
      ∧ (∀ id' v, Completed id' v ∈ effects → id' = id).
Proof.
  intros Hrun Hfc.
  pose proof (findOrCreate_found _ _ _ _ _ Hfc) as Hfound.
  apply list_find_Some in Hfound as (Hpos & Hid & _).
  unfold VirtualPeer.handleMessage, marker in Hrun.
  cbn [Message.type Message.value] in Hrun. rewrite Hfc in Hrun.
  assert (Hsend : ∀ id' v, Completed id' v ∉ VirtualPeer.sendAll p (Message.mk Message.snapshot id)).
  { intros id' v (k & Hk & _)%list_elem_of_fmap. done. }
  destruct remote as [S|].
  - destruct (not_ _) eqn:Hflag.
    + destruct (decide _) as [Hz|Hnz]; injection Hrun as <- <-;
        (split; [done|split; [done|]]); eexists; (split; [done|]); simpl;
        split_and!; try done.
      * by intros v [= ->]%list_elem_of_singleton.
      * by intros id' v [= -> _]%list_elem_of_singleton.
      * intros v Hv. by apply Hsend in Hv.
      * intros id' v Hv. by apply Hsend in Hv.
    + injection Hrun as <- <-. split; [done|split; [done|]].
      exists snapshot. simpl. rewrite list_insert_id by done.
      split_and!; try done.
      * intros v Hv. by apply not_elem_of_nil in Hv.
      * intros id' v Hv. by apply not_elem_of_nil in Hv.
  - injection Hrun as <- <-. split; [done|split; [done|]].
    exists snapshot. simpl. rewrite list_insert_id by done.
    split_and!; try done.
    + intros v Hv. by apply Hsend in Hv.
    + intros id' v Hv. by apply Hsend in Hv.
Qed.

Lemma handleMessage_resource p amount remote :
  VirtualPeer.handleMessage p (transfer amount) remote
  = (VirtualPeer.mk (VirtualPeer.name p) (addNumber (VirtualPeer.resources p) amount)
       (VirtualPeer.connections p)
       (VirtualPeer.credit (VirtualPeer.remoteIndex p remote) amount
          <$> VirtualPeer.snapshotTasks p), []).
Proof. done. Qed.

Lemma message_cases (message : Message.t) :
  message = marker (Message.value message) ∨ message = transfer (Message.value message).
Proof. destruct message as [[] v]; [by right|by left]. Qed.

(** The ids of the tasks of a peer after a call: unchanged, or one new id
    at the end that was not there before. *)
Lemma call_ids p c p' effects :
  call p c = (p', effects) →
  ids p' = ids p ∨ ∃ id, (id ∉ ids p) ∧ ids p' = ids p ++ [id].
Proof.
  assert (Hmarker : ∀ id remote q es,
    VirtualPeer.handleMessage p (marker id) remote = (q, es) →
    ids q = ids p ∨ ∃ id, (id ∉ ids p) ∧ ids q = ids p ++ [id]).
  { intros id remote q es Hrun.
    destruct (VirtualPeer.findOrCreate p id) as [[tasks pos] snapshot] eqn:Hfc.
    destruct (handleMessage_snapshot _ _ _ _ _ _ _ _ Hrun Hfc)
      as (_ & _ & s' & Hts & Hid' & _).
    pose proof (findOrCreate_found _ _ _ _ _ Hfc) as Hfound.
    apply list_find_Some in Hfound as (Hpos & Hid & _).
    assert (Hids : ids q = SnapshotTask.id <$> tasks).
    { unfold ids. rewrite Hts, list_fmap_insert, list_insert_id; [done|].
      rewrite list_lookup_fmap, Hpos. simpl. congruence. }
    destruct (findOrCreate_cases _ _ _ _ _ Hfc) as [[_ ->]|(Hnone & -> & _ & _)].
    - by left.
    - right. exists id. split; [by apply list_find_hasId_None|].
      by rewrite Hids, fmap_app. }
  destruct c as [message remote|id|receiver amount]; simpl.
  - destruct (message_cases message) as [-> | ->].
    + apply Hmarker.
    + rewrite handleMessage_resource. intros [= <- _]. left.
      unfold ids. simpl. rewrite <- list_fmap_compose.
      apply list_fmap_ext. intros ? t _. apply credit_id.
  - unfold VirtualPeer.initiateSnapshot.
    destruct (VirtualPeer.handleMessage _ _ _) as [q es] eqn:Hrun.
    intros [= <- _]. by eapply Hmarker.
  - unfold VirtualPeer.initiatePayment.
    destruct (list_find _ _) as [[? k]|]; intros [= <- _]; by left.
Qed.

(** C8. Each operation of a peer (handleMessage for a marker or a transfer,
    from a sender or without one, initiateSnapshot, initiatePayment whether
    it returns or throws) keeps the ids of the peer's snapshot tasks pairwise
    different: at most one task per snapshot id. *)
Theorem C8_one_task_per_id p c :
  NoDup (ids p) → NoDup (ids (call p c).1).
Proof.
  intros Hnd. destruct (call p c) as [p' effects] eqn:Hcall. simpl.
  destruct (call_ids _ _ _ _ Hcall) as [-> | (id & Hfresh & ->)]; [done|].
  apply NoDup_app. split_and!; [done| |apply NoDup_singleton].
  intros x Hx ->%list_elem_of_singleton. done.
Qed.

(** ** The vector of a snapshot keeps its shape *)

Section Vector.
Variable n : nat.   (* the number of connections of the peer *)
Variable b : number. (* the balance when the task was created *)
Variable id : Z.    (* the snapshot *)

Lemma shaped_set v i x :
  shaped n b v → i = Minus1 ∨ (∃ m, i = Idx m ∧ m < n) → shaped n b (JsArray.set v i x).
Proof.
  intros [Hlen Hlast] [-> | (m & -> & Hm)]; [done|].
  unfold shaped, JsArray.length in *. simpl in *. split.
  - rewrite store_length_lt by lia. done.
  - rewrite store_lookup_lt by lia. done.
Qed.

Lemma shaped_credit p remote amount t :
  length (VirtualPeer.connections p) = n →
  shaped n b (SnapshotTask.capturedResources t) →
  shaped n b (SnapshotTask.capturedResources
            (VirtualPeer.credit (VirtualPeer.remoteIndex p remote) amount t)).
Proof.
  intros Hn Hs. unfold VirtualPeer.credit. destruct (not_ _); [|done].
  simpl. apply shaped_set; [done|].
  destruct (remoteIndex_cases p remote) as [-> | (m & -> & Hm)]; [by left|].
  right. exists m. split; [done|lia].
Qed.

Lemma settled_marker p id' remote p' effects :
  settled n b id p →
  VirtualPeer.handleMessage p (marker id') remote = (p', effects) →
  settled n b id p' ∧ ∀ v, Completed id v ∈ effects → shaped n b v.
Proof.
  intros (Hn & Hin & Hall) Hrun.
  destruct (VirtualPeer.findOrCreate p id') as [[tasks pos] snapshot] eqn:Hfc.
  destruct (handleMessage_snapshot _ _ _ _ _ _ _ _ Hrun Hfc)
    as (_ & Hks & s' & Hts & Hid' & Hcr & Hrep & Hrepid).
  pose proof (findOrCreate_found _ _ _ _ _ Hfc) as Hfound.
  apply list_find_Some in Hfound as (Hpos & Hid & _).
  assert (Hall' : Forall (λ t, SnapshotTask.id t = id →
                               shaped n b (SnapshotTask.capturedResources t)) tasks).
  { destruct (findOrCreate_cases _ _ _ _ _ Hfc) as [[_ ->]|(Hnone & -> & _ & _)];
      [done|].
    apply Forall_app. split; [done|]. apply Forall_singleton. simpl.
    intros ->. by apply list_find_hasId_None in Hnone. }
  assert (Hsnap : id' = id → shaped n b (SnapshotTask.capturedResources snapshot)).
  { intros ->. by eapply (Forall_lookup_1 _ _ _ _ Hall' Hpos). }
  split; [split_and!|].
  - by rewrite Hks.
  - destruct (call_ids p (HandleMessage (marker id') remote) p' effects Hrun)
      as [-> | (? & _ & ->)]; [done|].
    apply elem_of_app. by left.
  - rewrite Hts. apply Forall_insert; [done|]. rewrite Hid', Hcr. done.
  - intros v Hv. pose proof (Hrepid _ _ Hv) as <-.
    rewrite (Hrep _ Hv). by apply Hsnap.
Qed.

Lemma settled_call p c p' effects :
  settled n b id p → call p c = (p', effects) →
  settled n b id p' ∧ ∀ v, Completed id v ∈ effects → shaped n b v.
Proof.
  intros Hp Hcall. destruct c as [message remote|id'|receiver amount]; simpl in Hcall.
  - destruct (message_cases message) as [Hm | Hm]; rewrite Hm in Hcall.
    + by eapply settled_marker.
    + rewrite handleMessage_resource in Hcall. injection Hcall as <- <-.
      destruct Hp as (Hn & Hin & Hall). split; [split_and!|].
      * done.
      * unfold ids in *. simpl. rewrite <- list_fmap_compose.
        erewrite list_fmap_ext; [exact Hin|]. intros ? t _. apply credit_id.
      * simpl. apply Forall_fmap. eapply Forall_impl; [exact Hall|].
        intros t Ht. simpl. rewrite credit_id. intros Hid.
        apply shaped_credit; auto.
      * intros v Hv. by apply not_elem_of_nil in Hv.
  - unfold VirtualPeer.initiateSnapshot in Hcall.
    destruct (VirtualPeer.handleMessage _ _ _) as [q es] eqn:Hrun.
    injection Hcall as <- <-.
    destruct (settled_marker _ _ _ _ _ Hp Hrun) as [Hq Hrep].
    split; [done|]. intros v [Hv|Hv]%elem_of_cons; [done|auto].
  - unfold VirtualPeer.initiatePayment in Hcall.
    destruct (list_find _ _) as [[? k]|]; injection Hcall as <- <-;
      (split; [exact Hp|]).
    + by intros v [= ]%list_elem_of_singleton.
    + intros v Hv. by apply not_elem_of_nil in Hv.
Qed.

Lemma settled_calls cs p p' effects :
  settled n b id p → calls p cs = (p', effects) →
  settled n b id p' ∧ ∀ v, Completed id v ∈ effects → shaped n b v.
Proof.
  revert p p' effects. induction cs as [|c cs IH]; intros p p' effects Hp; simpl.
  - intros [= <- <-]. split; [done|]. intros v Hv. by apply not_elem_of_nil in Hv.
  - destruct (call p c) as [p1 es1] eqn:Hc.
    destruct (calls p1 cs) as [p2 es2] eqn:Hcs. intros [= <- <-].
    destruct (settled_call _ _ _ _ Hp Hc) as [Hp1 Hes1].
    destruct (IH _ _ _ Hp1 Hcs) as [Hp2 Hes2].
    split; [done|]. intros v [Hv|Hv]%elem_of_app; auto.
Qed.

End Vector.

(** ** The first marker of a snapshot *)

Lemma fmap_constant {B C} (l : list B) (y : C) :
  (λ _, y) <$> l = replicate (length l) y.
Proof. induction l as [|x l IH]; simpl; [done|]. by f_equal. Qed.

Lemma findOrCreate_new p id :
  id ∉ ids p →
  VirtualPeer.findOrCreate p id
  = (VirtualPeer.snapshotTasks p ++ [VirtualPeer.newSnapshotTask p id],
     length (VirtualPeer.snapshotTasks p), VirtualPeer.newSnapshotTask p id).
Proof.
  intros Hnew%list_find_hasId_None. unfold VirtualPeer.findOrCreate. by rewrite Hnew.
Qed.

Lemma new_receiveStatus_listening p id i :
  not_ (JsArray.get (SnapshotTask.receiveStatus (VirtualPeer.newSnapshotTask p id)) i) = true.
Proof.
  destruct i as [|m]; [done|].
  unfold VirtualPeer.newSnapshotTask. cbn [SnapshotTask.receiveStatus].
  rewrite get_of_list, list_lookup_fmap.
  by destruct (VirtualPeer.connections p !! m).
Qed.

Lemma new_capturedResources_shaped p id :
  shaped (length (VirtualPeer.connections p)) (VirtualPeer.resources p)
    (SnapshotTask.capturedResources (VirtualPeer.newSnapshotTask p id)).
Proof.
  unfold shaped, VirtualPeer.newSnapshotTask. cbn [SnapshotTask.capturedResources].
  split.
  - unfold JsArray.length, JsArray.of_list. simpl.
    rewrite length_fmap, length_app, length_fmap. simpl. lia.
  - rewrite get_of_list, lookup_app_r by (rewrite length_fmap; lia).
    rewrite length_fmap. by replace (_ - _) with 0 by lia.
Qed.

Lemma settled_first p id remote p1 es1 :
  id ∉ ids p →
  VirtualPeer.handleMessage p (marker id) remote = (p1, es1) →
  settled (length (VirtualPeer.connections p)) (VirtualPeer.resources p) id p1
  ∧ ∀ v, Completed id v ∈ es1 →
         shaped (length (VirtualPeer.connections p)) (VirtualPeer.resources p) v.
Proof.
  intros Hnew Hrun.
  destruct (handleMessage_snapshot _ _ _ _ _ _ _ _ Hrun (findOrCreate_new _ _ Hnew))
    as (_ & Hks & s' & Hts & Hid' & Hcr & Hrep & _).
  pose proof (new_capturedResources_shaped p id) as Hshaped.
  assert (Hts' : VirtualPeer.snapshotTasks p1 = VirtualPeer.snapshotTasks p ++ [s']).
  { rewrite Hts. rewrite insert_app_r_alt by lia.
    by replace (_ - _) with 0 by lia. }
  split; [split_and!|].
  - by rewrite Hks.
  - unfold ids. rewrite Hts', fmap_app. apply elem_of_app. right.
    simpl. rewrite Hid'. left.
  - rewrite Hts'. apply Forall_app. split.
    + apply Forall_forall. intros t Ht Hid. exfalso. apply Hnew.
      unfold ids. apply list_elem_of_fmap. by exists t.
    + apply Forall_singleton. intros _. by rewrite Hcr.
  - intros v Hv. by rewrite (Hrep _ Hv).
Qed.

(** C2. When a peer that has no task for snapshot [id] receives a marker for
    [id] (from a sender or without one), [new SnapshotTask] is initialised
    with one flag per connection, all [false], and a vector of one [0] per
    connection followed by the current balance. That task is appended to the
    peer's tasks; by the end of the call only the sender's flag has been set.
    Whatever calls follow on the peer, every completion logged for [id]
    carries a vector of (number of connections + 1) slots whose last slot is
    the balance the peer had when that first marker arrived. *)
Theorem C2_first_marker_creates_task p id remote :
  id ∉ ids p →
  let n := length (VirtualPeer.connections p) in
  let created := VirtualPeer.newSnapshotTask p id in
  VirtualPeer.findOrCreate p id
  = (VirtualPeer.snapshotTasks p ++ [created], length (VirtualPeer.snapshotTasks p), created)
  ∧ SnapshotTask.id created = id
  ∧ SnapshotTask.receiveStatus created = JsArray.mk (replicate n (Some false)) None
  ∧ SnapshotTask.capturedResources created
    = JsArray.mk (replicate n (Some (Num 0)) ++ [Some (VirtualPeer.resources p)]) None
  ∧ ∃ p1 es1 snapshot,
      VirtualPeer.handleMessage p (marker id) remote = (p1, es1)
      ∧ VirtualPeer.snapshotTasks p1 = VirtualPeer.snapshotTasks p ++ [snapshot]
      ∧ SnapshotTask.id snapshot = id
      ∧ SnapshotTask.capturedResources snapshot = SnapshotTask.capturedResources created
      ∧ SnapshotTask.receiveStatus snapshot
        = match remote with
          | None => SnapshotTask.receiveStatus created
          | Some _ => JsArray.set (SnapshotTask.receiveStatus created)
                        (VirtualPeer.remoteIndex p remote) true
          end
      ∧ ∀ cs p2 es2 v,
          calls p1 cs = (p2, es2) →
          Completed id v ∈ es1 ++ es2 →
          JsArray.length v = n + 1
          ∧ JsArray.get v (Idx n) = Some (VirtualPeer.resources p).
Proof.
  intros Hnew n created. split_and!.
  - by apply findOrCreate_new.
  - done.
  - unfold created, VirtualPeer.newSnapshotTask, JsArray.of_list. simpl.
    f_equal. by rewrite fmap_constant, fmap_replicate.
  - unfold created, VirtualPeer.newSnapshotTask, JsArray.of_list. simpl.
    f_equal. by rewrite fmap_app, fmap_constant, fmap_replicate.
  - destruct (VirtualPeer.handleMessage p (marker id) remote) as [p1 es1] eqn:Hrun.
    destruct (settled_first _ _ _ _ _ Hnew Hrun) as [Hsettled Hes1].
    assert (Hstate : ∃ snapshot,
      VirtualPeer.snapshotTasks p1 = VirtualPeer.snapshotTasks p ++ [snapshot]
      ∧ SnapshotTask.id snapshot = id
      ∧ SnapshotTask.capturedResources snapshot = SnapshotTask.capturedResources created
      ∧ SnapshotTask.receiveStatus snapshot
        = match remote with
          | None => SnapshotTask.receiveStatus created
          | Some _ => JsArray.set (SnapshotTask.receiveStatus created)
                        (VirtualPeer.remoteIndex p remote) true
          end).
    { unfold VirtualPeer.handleMessage, marker in Hrun.
      cbn [Message.type Message.value] in Hrun.
      rewrite (findOrCreate_new _ _ Hnew) in Hrun.
      destruct remote as [S|].
      - rewrite new_receiveStatus_listening in Hrun.
        rewrite insert_app_r_alt in Hrun by lia.
        replace (length (VirtualPeer.snapshotTasks p)
                 - length (VirtualPeer.snapshotTasks p)) with 0 in Hrun by lia.
        destruct (decide _); injection Hrun as <- <-; by eexists.
      - injection Hrun as <- <-. by exists created. }
    destruct Hstate as (snapshot & H1 & H2 & H3 & H4).
    exists p1, es1, snapshot. split_and!; try done.
    intros cs p2 es2 v Hcs [Hv|Hv]%elem_of_app.
    + by apply Hes1.
    + destruct (settled_calls _ _ _ _ _ _ _ Hsettled Hcs) as [_ Hes2]. by apply Hes2.
Qed.

(** ** Transfers *)

(** C3. A transfer of [amount] from a sender [S] whose connection
    is at position [i] sends and logs nothing and keeps every task at its
    place with its id and flags. The balance becomes what JavaScript makes of
    [balance + amount]: exactly that sum when it is an integer of magnitude at
    most 2^53. In each task the vector slots other than [i] are unchanged;
    slot [i], holding [y], becomes [y + amount], computed the same way (for
    an integer [x] exactly [x + amount] when that is at most 2^53 in
    magnitude), when the task's flag [i] is [false], and stays as it is when
    the flag is [true] (the task is then left as it was). *)
Theorem C3_transfer_credits_open_channels p S amount i :
  VirtualPeer.remoteIndex p (Some S) = Idx i →
  ∃ p',
    VirtualPeer.handleMessage p (transfer amount) (Some S) = (p', [])
    ∧ VirtualPeer.resources p' = addNumber (VirtualPeer.resources p) amount
    ∧ (∀ b, VirtualPeer.resources p = Num b → safe (b + amount) →
            VirtualPeer.resources p' = Num (b + amount))
    ∧ VirtualPeer.connections p' = VirtualPeer.connections p
    ∧ length (VirtualPeer.snapshotTasks p') = length (VirtualPeer.snapshotTasks p)
    ∧ ∀ pos task,
        VirtualPeer.snapshotTasks p !! pos = Some task →
        ∃ task',
          VirtualPeer.snapshotTasks p' !! pos = Some task'
          ∧ SnapshotTask.id task' = SnapshotTask.id task
          ∧ SnapshotTask.receiveStatus task' = SnapshotTask.receiveStatus task
          ∧ (∀ j, j ≠ Idx i →
               JsArray.get (SnapshotTask.capturedResources task') j
               = JsArray.get (SnapshotTask.capturedResources task) j)
          ∧ (JsArray.get (SnapshotTask.receiveStatus task) (Idx i) = Some true →
               task' = task)
          ∧ (∀ closed y,
               JsArray.get (SnapshotTask.receiveStatus task) (Idx i) = Some closed →
               JsArray.get (SnapshotTask.capturedResources task) (Idx i) = Some y →
               JsArray.get (SnapshotTask.capturedResources task') (Idx i)
               = Some (if closed then y else addNumber y amount))
          ∧ (∀ closed x,
               JsArray.get (SnapshotTask.receiveStatus task) (Idx i) = Some closed →
               JsArray.get (SnapshotTask.capturedResources task) (Idx i) = Some (Num x) →
               (closed = false → safe (x + amount)) →
               JsArray.get (SnapshotTask.capturedResources task') (Idx i)
               = Some (Num (if closed then x else x + amount))).
Proof.
  intros Hi. eexists. rewrite handleMessage_resource, Hi.
  split; [reflexivity|]. cbn [VirtualPeer.resources VirtualPeer.connections
                              VirtualPeer.snapshotTasks].
  split_and!; [done| |done|by rewrite length_fmap|].
  { intros b -> Hb. by apply addNumber_safe. }
  intros pos task Hpos. exists (VirtualPeer.credit (Idx i) amount task).
  assert (Hslot : ∀ closed y,
    JsArray.get (SnapshotTask.receiveStatus task) (Idx i) = Some closed →
    JsArray.get (SnapshotTask.capturedResources task) (Idx i) = Some y →
    JsArray.get (SnapshotTask.capturedResources (VirtualPeer.credit (Idx i) amount task))
      (Idx i)
    = Some (if closed then y else addNumber y amount)).
  { intros closed y Hflag Hy. unfold VirtualPeer.credit. rewrite Hflag.
    destruct closed; cbn [not_ SnapshotTask.capturedResources]; [done|].
    by rewrite get_set_eq, Hy. }
  split_and!.
  - by rewrite list_lookup_fmap, Hpos.
  - apply credit_id.
  - apply credit_receiveStatus.
  - intros j Hj. unfold VirtualPeer.credit. destruct (not_ _); [|done].
    cbn [SnapshotTask.capturedResources]. by apply get_set_ne.
  - intros Hclosed. unfold VirtualPeer.credit. by rewrite Hclosed.
  - exact Hslot.
  - intros closed x Hflag Hx Hsafe. rewrite (Hslot closed (Num x) Hflag Hx).
    destruct closed; [done|]. by rewrite addNumber_safe by auto.
Qed.

(** ** Duplicate markers *)

(** C4. When the peer has a task for snapshot [id] and the flag of the
    sender's channel in it is already [true], a marker for [id] from that
    sender leaves the peer exactly as it was (balance, connections, tasks
    with their flags and vectors) and sends and logs nothing. *)
Theorem C4_duplicate_marker_ignored p id S pos snapshot :
  list_find (hasId id) (VirtualPeer.snapshotTasks p) = Some (pos, snapshot) →
  JsArray.get (SnapshotTask.receiveStatus snapshot) (VirtualPeer.remoteIndex p (Some S))
  = Some true →
  VirtualPeer.handleMessage p (marker id) (Some S) = (p, []).
Proof.
  intros Hfound Hflag. unfold VirtualPeer.handleMessage, marker.
  cbn [Message.type Message.value]. unfold VirtualPeer.findOrCreate.
  rewrite Hfound, Hflag. by destruct p.
Qed.

(** ** Initiating a snapshot *)

(** C5. [initiateSnapshot(id)] is [handleMessage] of a marker without sender
    (after its own log line): the marker is sent on every connection of the
    peer, whether or not a task for [id] existed; the existing tasks are not
    touched, and a task created for [id] has no flag set. *)
Theorem C5_initiateSnapshot_forwards_everywhere p id :
  VirtualPeer.initiateSnapshot p id
  = ((VirtualPeer.handleMessage p (marker id) None).1,
     Initiated id :: (VirtualPeer.handleMessage p (marker id) None).2)
  ∧ (VirtualPeer.handleMessage p (marker id) None).2
    = (λ k, Send k (marker id)) <$> VirtualPeer.connections p
  ∧ (VirtualPeer.handleMessage p (marker id) None).1
    = VirtualPeer.with_snapshotTasks p
        (if decide (id ∈ ids p) then VirtualPeer.snapshotTasks p
         else VirtualPeer.snapshotTasks p ++ [VirtualPeer.newSnapshotTask p id])
  ∧ ∀ j, JsArray.get (SnapshotTask.receiveStatus (VirtualPeer.newSnapshotTask p id)) j
         ≠ Some true.
Proof.
  split_and!.
  - unfold VirtualPeer.initiateSnapshot. by destruct (VirtualPeer.handleMessage _ _ _).
  - unfold VirtualPeer.handleMessage, marker. cbn [Message.type Message.value].
    by destruct (VirtualPeer.findOrCreate p id) as [[tasks pos] snapshot].
  - unfold VirtualPeer.handleMessage, marker. cbn [Message.type Message.value].
    destruct (decide (id ∈ ids p)) as [Hin|Hnew].
    + unfold VirtualPeer.findOrCreate.
      destruct (list_find _ _) as [[pos snapshot]|] eqn:Hf; [done|].
      by apply list_find_hasId_None in Hf.
    + by rewrite (findOrCreate_new _ _ Hnew).
  - intros j Hj. pose proof (new_receiveStatus_listening p id j) as Hl.
    by rewrite Hj in Hl.
Qed.

(** ** Payments *)

Lemma no_connection_find p receiver :
  (∀ k, k ∈ VirtualPeer.connections p → VirtualConnection.remote k ≠ receiver) →
  list_find (λ k, VirtualConnection.remote k = receiver) (VirtualPeer.connections p) = None.
Proof. intros Hno. apply list_find_None, Forall_forall. exact Hno. Qed.

Lemma initiatePayment_unknown p receiver amount :
  (∀ k, k ∈ VirtualPeer.connections p → VirtualConnection.remote k ≠ receiver) →
  VirtualPeer.initiatePayment p receiver amount
  = (VirtualPeer.with_resources p (subNumber (VirtualPeer.resources p) amount), [],
     ThrewTypeError).
Proof.
  intros Hno%no_connection_find. unfold VirtualPeer.initiatePayment.
  cbn [VirtualPeer.with_resources VirtualPeer.connections]. by rewrite Hno.
Qed.

(** C6. [initiatePayment] on a peer without a connection to [receiver] ends
    by throwing (the [TypeError] of calling [send] on the [undefined] that
    [find] returned), within the call itself; no message is sent: no effect
    comes out of the peer, no timer is added and no line is logged. *)
Theorem C6_unknown_receiver_throws w a p receiver amount :
  World.peers w !! a = Some p →
  (∀ k, k ∈ VirtualPeer.connections p → VirtualConnection.remote k ≠ receiver) →
  (VirtualPeer.initiatePayment p receiver amount).2 = ThrewTypeError
  ∧ (VirtualPeer.initiatePayment p receiver amount).1.2 = []
  ∧ (World.initiatePayment w a receiver amount).2 = ThrewTypeError
  ∧ World.timers (World.initiatePayment w a receiver amount).1 = World.timers w
  ∧ World.console (World.initiatePayment w a receiver amount).1 = World.console w.
Proof.
  intros Ha Hno. unfold World.initiatePayment.
  rewrite Ha, (initiatePayment_unknown _ _ _ Hno). done.
Qed.

(** C10. When [initiatePayment] throws because no connection
    leads to [receiver], the debit [this.resources -= amount] has already
    been made and is not undone: the caller's balance, in the peer and in
    the store, is what JavaScript makes of [balance - amount], which is
    exactly that difference when it is an integer of magnitude at most
    2^53. *)
Theorem C10_failed_payment_still_debits w a p receiver amount :
  World.peers w !! a = Some p →
  (∀ k, k ∈ VirtualPeer.connections p → VirtualConnection.remote k ≠ receiver) →
  (VirtualPeer.initiatePayment p receiver amount).2 = ThrewTypeError
  ∧ VirtualPeer.resources (VirtualPeer.initiatePayment p receiver amount).1.1
    = subNumber (VirtualPeer.resources p) amount
  ∧ (World.initiatePayment w a receiver amount).2 = ThrewTypeError
  ∧ World.balance (World.initiatePayment w a receiver amount).1 a
    = subNumber (World.balance w a) amount
  ∧ ∀ b,
      VirtualPeer.resources p = Num b → safe (b - amount) →
      VirtualPeer.resources (VirtualPeer.initiatePayment p receiver amount).1.1
      = Num (b - amount)
      ∧ World.balance (World.initiatePayment w a receiver amount).1 a = Num (b - amount).
Proof.
  intros Ha Hno. unfold World.initiatePayment, World.balance.
  rewrite Ha, (initiatePayment_unknown _ _ _ Hno). simpl.
  rewrite lookup_insert_eq. simpl. split_and!; try done.
  intros b -> Hb. by rewrite subNumber_safe.
Qed.

(** ** The simulation *)

Lemma performAll_peers self es w :
  World.peers (World.performAll self w es) = World.peers w.
Proof.
  unfold World.performAll. revert w.
  induction es as [|e es IH]; intros w; simpl; [done|].
  rewrite IH. by destruct e.
Qed.

Lemma deliver_transfer_peers w k amount due pb :
  World.peers w !! VirtualConnection.remote k = Some pb →
  World.peers (World.deliver w (mkTimer due k (transfer amount)))
  = <[VirtualConnection.remote k :=
        (VirtualPeer.handleMessage pb (transfer amount)
           (Some (VirtualConnection.local k))).1]> (World.peers w).
Proof.
  intros Hb. unfold World.deliver. cbn [conn msg World.log World.peers].
  rewrite Hb, handleMessage_resource. by rewrite performAll_peers.
Qed.

Lemma deliver_transfer_balance w k amount due c :
  is_Some (World.peers w !! VirtualConnection.remote k) →
  World.balance (World.deliver w (mkTimer due k (transfer amount))) c
  = if decide (c = VirtualConnection.remote k)
    then addNumber (World.balance w c) amount else World.balance w c.
Proof.
  intros [pb Hb]. unfold World.balance.
  rewrite (deliver_transfer_peers _ _ _ _ _ Hb), handleMessage_resource.
  case_decide as Hc.
  - subst c. by rewrite lookup_insert_eq, Hb.
  - by rewrite lookup_insert_ne.
Qed.

(** C7. Peer [A] has a connection [k] to peer [B].
    [A.initiatePayment(B, amount)] returns, debits [A] at once and schedules
    the delivery of the transfer on [k]; whenever that delivery runs it
    credits [B] and changes no other balance; debit and credit are JavaScript
    subtraction and addition. When the two balances and the results of the
    debit and of the credit are integers of magnitude at most 2^53, [A]'s
    balance is lower by exactly [amount] after the send, [B]'s is higher by
    exactly [amount] after the delivery, and when the delivery runs right
    after the send, the sum of the two balances is what it was before the
    send. *)
Theorem C7_transfer_conservation w A B amount pa pos k :
  World.peers w !! A = Some pa →
  is_Some (World.peers w !! B) →
  list_find (λ k, VirtualConnection.remote k = B) (VirtualPeer.connections pa)
  = Some (pos, k) →
  let w1 := (World.initiatePayment w A B amount).1 in
  let tm := mkTimer (World.clock w + timeout (VirtualConnection.delay k)) k (transfer amount) in
  let w2 := World.deliver (World.with_timers w1 (World.timers w)) tm in
  (World.initiatePayment w A B amount).2 = Returned
  ∧ World.balance w1 A = subNumber (World.balance w A) amount
  ∧ World.timers w1 = World.timers w ++ [tm]
  ∧ VirtualConnection.remote k = B
  ∧ (∀ w', is_Some (World.peers w' !! B) →
       World.balance (World.deliver w' tm) B = addNumber (World.balance w' B) amount)
  ∧ (∀ w' c, is_Some (World.peers w' !! B) → c ≠ B →
       World.balance (World.deliver w' tm) c = World.balance w' c)
  ∧ (∀ a b,
       World.balance w A = Num a → World.balance w B = Num b →
       safe a → safe b → safe (a - amount) → safe (b + amount) →
       World.balance w1 A = Num (a - amount)
       ∧ World.balance w2 B = Num (valueOf (World.balance w1 B) + amount)
       ∧ ∃ a' b',
           World.balance w2 A = Num a' ∧ World.balance w2 B = Num b'
           ∧ (a' + b' = a + b)%Z).
Proof.
  intros Ha Hb Hk w1 tm w2.
  assert (Hremote : VirtualConnection.remote k = B)
    by (by apply list_find_Some in Hk as (_ & ? & _)).
  assert (Hw1 : World.initiatePayment w A B amount
                = (World.send (World.with_peers w
                     (<[A := VirtualPeer.with_resources pa
                              (subNumber (VirtualPeer.resources pa) amount)]>
                        (World.peers w))) k (transfer amount), Returned)).
  { unfold World.initiatePayment, VirtualPeer.initiatePayment.
    cbn [VirtualPeer.with_resources VirtualPeer.connections].
    by rewrite Ha, Hk. }
  assert (Hbal1 : ∀ c, World.balance w1 c
                       = if decide (c = A) then subNumber (World.balance w c) amount
                         else World.balance w c).
  { intros c. unfold w1, World.balance. rewrite Hw1. simpl.
    case_decide as Hc.
    - subst c. by rewrite lookup_insert_eq, Ha.
    - by rewrite lookup_insert_ne. }
  assert (Hb1 : is_Some (World.peers (World.with_timers w1 (World.timers w))
                           !! VirtualConnection.remote k)).
  { unfold w1. rewrite Hw1, Hremote. simpl.
    destruct (decide (A = B)) as [->|Hne].
    - rewrite lookup_insert_eq. eauto.
    - by rewrite lookup_insert_ne. }
  assert (Hbal2 : ∀ c, World.balance w2 c
                       = if decide (c = B) then addNumber (World.balance w1 c) amount
                         else World.balance w1 c).
  { intros c. unfold w2, tm. rewrite deliver_transfer_balance by done.
    rewrite Hremote. by destruct (decide (c = B)). }
  split_and!.
  - by rewrite Hw1.
  - rewrite Hbal1. by rewrite decide_True.
  - unfold w1. by rewrite Hw1.
  - done.
  - intros w' Hb'. unfold tm. rewrite deliver_transfer_balance by (by rewrite Hremote).
    by rewrite decide_True.
  - intros w' c Hb' Hc. unfold tm.
    rewrite deliver_transfer_balance by (by rewrite Hremote).
    rewrite decide_False; [done|congruence].
  - intros a b HA HB Hsa Hsb Hsa' Hsb'.
    assert (H1A : World.balance w1 A = Num (a - amount)).
    { rewrite Hbal1, decide_True, HA by done. by apply subNumber_safe. }
    split; [done|]. rewrite !Hbal2, (decide_True (P := B = B)) by done.
    destruct (decide (A = B)) as [->|Hne].
    + assert (a = b) as -> by congruence.
      rewrite H1A. cbn [valueOf].
      rewrite addNumber_safe by (by replace (b - amount + amount)%Z with b by lia).
      split; [done|]. eexists _, _. split; [done|]. split; [done|]. lia.
    + rewrite (Hbal1 B), (decide_False (P := B = A)) by done.
      rewrite HB. cbn [valueOf]. rewrite addNumber_safe by done.
      split; [done|]. rewrite H1A. eexists _, _. split; [done|]. split; [done|]. lia.
Qed.

(** ** Order of delivery on a connection *)















(** * The properties on the driver's scenario *)

Example threePeers_j : World.peers threePeers !! 1 = Some peer_j.
Proof. by vm_compute. Qed.

Example threePeers_k : World.peers threePeers !! 2 = Some peer_k.
Proof. by vm_compute. Qed.

Example peer_k_listening_value :
  peer_k_listening
  = VirtualPeer.mk "k"%string (Num 100) (VirtualPeer.connections peer_k)
      [SnapshotTask.mk 201 (JsArray.mk [Some false; Some true] None)
         (JsArray.mk [Some (Num 0); Some (Num 0); Some (Num 100)] None)].
Proof. by vm_compute. Qed.

(** The payment of [j] arrives at [k] before the marker of [j]: 35 is
    recorded for the channel from [j], and the captured balance stays 100. *)
Example payment_before_marker :
  calls peer_k_listening
    [HandleMessage (transfer 35) (Some 1); HandleMessage (marker 201) (Some 1)]
  = (VirtualPeer.mk "k"%string (Num 135) (VirtualPeer.connections peer_k)
       [SnapshotTask.mk 201 (JsArray.mk [Some true; Some true] None)
          (JsArray.mk [Some (Num 35); Some (Num 0); Some (Num 100)] None)],
     [Completed 201 (JsArray.mk [Some (Num 35); Some (Num 0); Some (Num 100)] None)]).
Proof. by vm_compute. Qed.

(** The marker of [j] arrives first: the channel entry stays 0. *)
Example marker_before_payment :
  calls peer_k_listening
    [HandleMessage (marker 201) (Some 1); HandleMessage (transfer 35) (Some 1)]
  = (VirtualPeer.mk "k"%string (Num 135) (VirtualPeer.connections peer_k)
       [SnapshotTask.mk 201 (JsArray.mk [Some true; Some true] None)
          (JsArray.mk [Some (Num 0); Some (Num 0); Some (Num 100)] None)],
     [Completed 201 (JsArray.mk [Some (Num 0); Some (Num 0); Some (Num 100)] None)]).
Proof. by vm_compute. Qed.

(** A transfer from a peer without a connection writes the property ["-1"]
    of the vector: [undefined + 35] is [NaN]. *)
Example transfer_from_stranger :
  SnapshotTask.capturedResources
    <$> VirtualPeer.snapshotTasks
          (VirtualPeer.handleMessage peer_k_listening (transfer 35) (Some 7)).1
  = [JsArray.mk [Some (Num 0); Some (Num 0); Some (Num 100)] (Some NaN)].
Proof. by vm_compute. Qed.

(** A connection made after a task was created shifts nothing in the task:
    position 2 of [k]'s connections then meets the slot of the captured
    balance, for which the task holds no flag. *)
Example transfer_after_late_connect :
  SnapshotTask.capturedResources
    <$> VirtualPeer.snapshotTasks
          (VirtualPeer.handleMessage
             (VirtualPeer.with_connections peer_k_listening
                (VirtualPeer.connections peer_k ++ [VirtualConnection.mk 2 3 500]))
             (transfer 35) (Some 3)).1
  = [JsArray.mk [Some (Num 0); Some (Num 0); Some (Num 135)] None].
Proof. by vm_compute. Qed.

Lemma C1_marker_closes_channel_witness :
  VirtualPeer.remoteIndex peer_k_listening (Some 1) = Idx 0
  ∧ ∃ p' snapshot',
      VirtualPeer.handleMessage peer_k_listening (marker 201) (Some 1)
      = (p', [Completed 201 (SnapshotTask.capturedResources snapshot')])
      ∧ JsArray.get (SnapshotTask.receiveStatus snapshot') (Idx 0) = Some true.
Proof.
  split; [reflexivity|].
  destruct (C1_marker_closes_channel peer_k_listening 201 1 0
              (VirtualPeer.snapshotTasks peer_k_listening) 0
              (SnapshotTask.mk 201 (JsArray.mk [Some false; Some true] None)
                 (JsArray.mk [Some (Num 0); Some (Num 0); Some (Num 100)] None)))
    as (p' & effects & snapshot' & Hrun & Hfound & _ & Hflag & Hother & _ & _ & _ & _
        & Hall & _); [reflexivity..|].
  exists p', snapshot'. split; [|exact Hflag].
  etrans; [exact Hrun|]. f_equal. apply Hall. intros [|[|j]] f Hf.
  - rewrite Hflag in Hf. by injection Hf.
  - rewrite Hother in Hf by done. by injection Hf.
  - rewrite Hother in Hf by done. by vm_compute in Hf.
Defined.

Lemma C2_first_marker_creates_task_witness :
  (201%Z ∉ ids peer_j)
  ∧ SnapshotTask.capturedResources (VirtualPeer.newSnapshotTask peer_j 201)
    = JsArray.mk [Some (Num 0); Some (Num 0); Some (Num 100)] None.
Proof.
  assert (Hnew : 201%Z ∉ ids peer_j) by (vm_compute; apply not_elem_of_nil).
  split; [exact Hnew|].
  exact (proj1 (proj2 (proj2 (proj2
           (C2_first_marker_creates_task peer_j 201 (Some 0) Hnew))))).
Defined.

(** C3, read with exact sums, fails where binary64 rounds: on a peer whose
    balance is 2^53 and whose task has the flag of the sender's channel
    [false] and 2^53 in its slot, a transfer of 1 changes nothing; neither
    the balance nor the slot becomes 2^53 + 1. *)
Lemma C3_counterexample :
  VirtualPeer.remoteIndex peer_big (Some 1) = Idx 0
  ∧ VirtualPeer.resources peer_big = Num two53
  ∧ VirtualPeer.snapshotTasks peer_big
    = [SnapshotTask.mk 7 (JsArray.mk [Some false] None)
         (JsArray.mk [Some (Num two53); Some (Num 0)] None)]
  ∧ VirtualPeer.handleMessage peer_big (transfer 1) (Some 1) = (peer_big, [])
  ∧ VirtualPeer.resources
      (VirtualPeer.handleMessage peer_big (transfer 1) (Some 1)).1
    ≠ Num (two53 + 1)
  ∧ (∀ task',
       VirtualPeer.snapshotTasks
         (VirtualPeer.handleMessage peer_big (transfer 1) (Some 1)).1 !! 0
       = Some task' →
       JsArray.get (SnapshotTask.capturedResources task') (Idx 0)
       ≠ Some (Num (two53 + 1))).
Proof.
  split_and!; try by vm_compute.
  intros task' Htask. vm_compute in Htask. injection Htask as <-. by vm_compute.
Qed.

Lemma C3_transfer_credits_open_channels_witness :
  VirtualPeer.remoteIndex peer_k_listening (Some 1) = Idx 0
  ∧ ∃ p' task',
      VirtualPeer.handleMessage peer_k_listening (transfer 35) (Some 1) = (p', [])
      ∧ VirtualPeer.resources p' = Num 135
      ∧ VirtualPeer.snapshotTasks p' !! 0 = Some task'
      ∧ JsArray.get (SnapshotTask.capturedResources task') (Idx 0) = Some (Num 35).
Proof.
  split; [reflexivity|].
  destruct (C3_transfer_credits_open_channels peer_k_listening 1 35 0)
    as (p' & Hrun & _ & Hres & _ & _ & Htasks); [reflexivity|].
  destruct (Htasks 0 (SnapshotTask.mk 201 (JsArray.mk [Some false; Some true] None)
                        (JsArray.mk [Some (Num 0); Some (Num 0); Some (Num 100)] None))
              eq_refl)
    as (task' & Hpos & _ & _ & _ & _ & _ & Hslot).
  exists p', task'. split; [exact Hrun|]. split.
  - apply (Hres 100%Z); [reflexivity|]. unfold safe. lia.
  - split; [exact Hpos|].
    apply (Hslot false 0%Z); [reflexivity|reflexivity|]. intros _. unfold safe. lia.
Defined.

Lemma C4_duplicate_marker_ignored_witness :
  VirtualPeer.handleMessage peer_k_listening (marker 201) (Some 0)
  = (peer_k_listening, []).
Proof.
  apply (C4_duplicate_marker_ignored peer_k_listening 201 0 0
           (SnapshotTask.mk 201 (JsArray.mk [Some false; Some true] None)
              (JsArray.mk [Some (Num 0); Some (Num 0); Some (Num 100)] None)));
    reflexivity.
Defined.

Lemma no_connection_to_7 (k : VirtualConnection.t) :
  k ∈ VirtualPeer.connections peer_j → VirtualConnection.remote k ≠ 7.
Proof.
  revert k. apply Forall_forall. repeat constructor; by vm_compute.
Defined.

Lemma C6_unknown_receiver_throws_witness :
  (World.initiatePayment threePeers 1 7 35).2 = ThrewTypeError
  ∧ World.timers (World.initiatePayment threePeers 1 7 35).1 = World.timers threePeers.
Proof.
  destruct (C6_unknown_receiver_throws threePeers 1 peer_j 7 35)
    as (_ & _ & Hthrow & Htimers & _).
  - by vm_compute.
  - exact no_connection_to_7.
  - split; [exact Hthrow|exact Htimers].
Defined.

(** C10, read with exact differences, fails where binary64 rounds: a peer
    with the balance -2^53 and no connection that tries to pay 1 throws and
    keeps the balance -2^53; the balance is not lower by 1. *)
Lemma C10_counterexample :
  World.balance debtor 0 = Num (- two53)
  ∧ (World.initiatePayment debtor 0 5 1).2 = ThrewTypeError
  ∧ World.balance (World.initiatePayment debtor 0 5 1).1 0 = World.balance debtor 0
  ∧ World.balance (World.initiatePayment debtor 0 5 1).1 0 ≠ Num (- two53 - 1).
Proof. split_and!; by vm_compute. Qed.

Lemma C10_failed_payment_still_debits_witness :
  (World.initiatePayment threePeers 1 7 35).2 = ThrewTypeError
  ∧ World.balance (World.initiatePayment threePeers 1 7 35).1 1 = Num 65.
Proof.
  destruct (C10_failed_payment_still_debits threePeers 1 peer_j 7 35)
    as (_ & _ & Hthrow & _ & Hexact).
  - by vm_compute.
  - exact no_connection_to_7.
  - split; [exact Hthrow|].
    apply (Hexact 100%Z); [reflexivity|]. unfold safe. lia.
Defined.

(** C7, read with exact sums, fails where binary64 rounds: [a] with 0 pays
    2^53 to [b] with 1; after the delivery [a] has -2^53 and [b] has 2^53,
    not 2^53 + 1, and the two balances add up to 0, not to 1. *)
Lemma C7_counterexample :
  World.balance twoPeers 0 = Num 0
  ∧ World.balance twoPeers 1 = Num 1
  ∧ (World.initiatePayment twoPeers 0 1 two53).2 = Returned
  ∧ World.timers (World.initiatePayment twoPeers 0 1 two53).1
    = [mkTimer 10 (VirtualConnection.mk 0 1 10) (transfer two53)]
  ∧ World.balance
      (World.deliver
         (World.with_timers (World.initiatePayment twoPeers 0 1 two53).1 [])
         (mkTimer 10 (VirtualConnection.mk 0 1 10) (transfer two53))) 0
    = Num (- two53)
  ∧ World.balance
      (World.deliver
         (World.with_timers (World.initiatePayment twoPeers 0 1 two53).1 [])
         (mkTimer 10 (VirtualConnection.mk 0 1 10) (transfer two53))) 1
    = Num two53
  ∧ World.balance
      (World.deliver
         (World.with_timers (World.initiatePayment twoPeers 0 1 two53).1 [])
         (mkTimer 10 (VirtualConnection.mk 0 1 10) (transfer two53))) 1
    ≠ Num (1 + two53)
  ∧ (- two53 + two53 ≠ 0 + 1)%Z.
Proof. split_and!; by vm_compute. Qed.

Lemma C7_transfer_conservation_witness :
  World.balance (World.initiatePayment threePeers 1 2 35).1 1 = Num 65
  ∧ World.timers (World.initiatePayment threePeers 1 2 35).1
    = [mkTimer 2100 (VirtualConnection.mk 1 2 2100) (transfer 35)]
  ∧ ∃ a' b',
      World.balance
        (World.deliver
           (World.with_timers (World.initiatePayment threePeers 1 2 35).1
              (World.timers threePeers))
           (mkTimer 2100 (VirtualConnection.mk 1 2 2100) (transfer 35))) 1 = Num a'
      ∧ World.balance
          (World.deliver
             (World.with_timers (World.initiatePayment threePeers 1 2 35).1
                (World.timers threePeers))
             (mkTimer 2100 (VirtualConnection.mk 1 2 2100) (transfer 35))) 2 = Num b'
      ∧ (a' + b' = 200)%Z.
Proof.
  destruct (C7_transfer_conservation threePeers 1 2 35 peer_j 1
              (VirtualConnection.mk 1 2 2100))
    as (_ & _ & Htimers & _ & _ & _ & Hexact).
  - by vm_compute.
  - exists peer_k. by vm_compute.
  - reflexivity.
  - destruct (Hexact 100%Z 100%Z) as (Hdebit & _ & a' & b' & Ha' & Hb' & Hsum);
      [reflexivity|reflexivity|unfold safe; lia..|].
    split; [exact Hdebit|]. split; [exact Htimers|].
    exists a', b'. split; [exact Ha'|]. split; [exact Hb'|exact Hsum].
Defined.

Lemma C8_one_task_per_id_witness :
  NoDup (ids peer_k_listening)
  ∧ NoDup (ids (call peer_k_listening (HandleMessage (marker 301) (Some 0))).1).
Proof.
  assert (Hnd : NoDup (ids peer_k_listening)) by (vm_compute; apply NoDup_singleton).
  split; [exact Hnd|]. exact (C8_one_task_per_id _ _ Hnd).
Defined.




(** * Further properties of the code *)

(** ** What one call does to a task *)

Lemma call_connections p c :
  VirtualPeer.connections (call p c).1 = VirtualPeer.connections p.
Proof.
  destruct c as [message remote|id|receiver amount]; simpl.
  - destruct (message_cases message) as [-> | ->].
    + destruct (VirtualPeer.findOrCreate p (Message.value message))
        as [[tasks pos] snapshot] eqn:Hfc.
      destruct (VirtualPeer.handleMessage p _ remote) as [p' es] eqn:Hrun.
      by destruct (handleMessage_snapshot _ _ _ _ _ _ _ _ Hrun Hfc) as (_ & ? & _).
    + by rewrite handleMessage_resource.
  - unfold VirtualPeer.initiateSnapshot.
    destruct (VirtualPeer.findOrCreate p id) as [[tasks pos] snapshot] eqn:Hfc.
    destruct (VirtualPeer.handleMessage p _ None) as [p' es] eqn:Hrun.
    by destruct (handleMessage_snapshot _ _ _ _ _ _ _ _ Hrun Hfc) as (_ & ? & _).
  - unfold VirtualPeer.initiatePayment. by destruct (list_find _ _) as [[? ?]|].
Qed.

Lemma call_remoteIndex p c remote :
  VirtualPeer.remoteIndex (call p c).1 remote = VirtualPeer.remoteIndex p remote.
Proof. unfold VirtualPeer.remoteIndex. by rewrite call_connections. Qed.

(** The marker of snapshot [id] from [remote], seen from a task list: the
    task found or created is closed at the sender's position, or kept. *)
Lemma handleMessage_marker_tasks p id remote tasks pos snapshot :
  VirtualPeer.findOrCreate p id = (tasks, pos, snapshot) →
  VirtualPeer.snapshotTasks (VirtualPeer.handleMessage p (marker id) remote).1
  = if decide (remote ≠ None
               ∧ not_ (JsArray.get (SnapshotTask.receiveStatus snapshot)
                         (VirtualPeer.remoteIndex p remote)) = true)
    then <[pos := SnapshotTask.mk (SnapshotTask.id snapshot)
                    (JsArray.set (SnapshotTask.receiveStatus snapshot)
                       (VirtualPeer.remoteIndex p remote) true)
                    (SnapshotTask.capturedResources snapshot)]> tasks
    else tasks.
Proof.
  intros Hfc. unfold VirtualPeer.handleMessage, marker.
  cbn [Message.type Message.value]. rewrite Hfc.
  destruct remote as [S|]; cbv zeta.
  - destruct (not_ (JsArray.get (SnapshotTask.receiveStatus snapshot)
                      (VirtualPeer.remoteIndex p (Some S)))) eqn:Hopen.
    + match goal with
      | |- _ = if decide ?P then _ else _ => destruct (decide P) as [_|Hd]
      end.
      * by destruct (decide (VirtualPeer.listening _ = 0)).
      * by destruct Hd.
    + match goal with
      | |- _ = if decide ?P then _ else _ => destruct (decide P) as [[_ Hd]|_]
      end; done.
  - match goal with
    | |- _ = if decide ?P then _ else _ => destruct (decide P) as [[Hd _]|_]
    end; done.
Qed.

(** A task keeps its place and its id through a call, and is changed in one
    of two ways only: the marker of its own snapshot sets the flag of the
    sender, or a transfer is added to the slot of the sender; both only when
    the flag of the sender is not [true]. *)
Lemma call_task p c pos t :
  VirtualPeer.snapshotTasks p !! pos = Some t →
  ∃ t',
    VirtualPeer.snapshotTasks (call p c).1 !! pos = Some t'
    ∧ SnapshotTask.id t' = SnapshotTask.id t
    ∧ (t' = t
       ∨ (∃ remote,
            c = HandleMessage (marker (SnapshotTask.id t)) remote
            ∧ remote ≠ None
            ∧ list_find (hasId (SnapshotTask.id t)) (VirtualPeer.snapshotTasks p)
              = Some (pos, t)
            ∧ not_ (JsArray.get (SnapshotTask.receiveStatus t)
                      (VirtualPeer.remoteIndex p remote)) = true
            ∧ t' = SnapshotTask.mk (SnapshotTask.id t)
                     (JsArray.set (SnapshotTask.receiveStatus t)
                        (VirtualPeer.remoteIndex p remote) true)
                     (SnapshotTask.capturedResources t))
       ∨ (∃ amount remote,
            c = HandleMessage (transfer amount) remote
            ∧ not_ (JsArray.get (SnapshotTask.receiveStatus t)
                      (VirtualPeer.remoteIndex p remote)) = true
            ∧ t' = SnapshotTask.mk (SnapshotTask.id t) (SnapshotTask.receiveStatus t)
                     (JsArray.set (SnapshotTask.capturedResources t)
                        (VirtualPeer.remoteIndex p remote)
                        (plus (JsArray.get (SnapshotTask.capturedResources t)
                                 (VirtualPeer.remoteIndex p remote)) amount)))).
Proof.
  intros Hpos.
  assert (Hlt : pos < length (VirtualPeer.snapshotTasks p)) by (by eapply lookup_lt_Some).
  assert (Hmarker : ∀ id remote, ∃ t',
    VirtualPeer.snapshotTasks (VirtualPeer.handleMessage p (marker id) remote).1 !! pos
    = Some t'
    ∧ SnapshotTask.id t' = SnapshotTask.id t
    ∧ (t' = t
       ∨ (id = SnapshotTask.id t
          ∧ remote ≠ None
          ∧ list_find (hasId (SnapshotTask.id t)) (VirtualPeer.snapshotTasks p)
            = Some (pos, t)
          ∧ not_ (JsArray.get (SnapshotTask.receiveStatus t)
                    (VirtualPeer.remoteIndex p remote)) = true
          ∧ t' = SnapshotTask.mk (SnapshotTask.id t)
                   (JsArray.set (SnapshotTask.receiveStatus t)
                      (VirtualPeer.remoteIndex p remote) true)
                   (SnapshotTask.capturedResources t)))).
  { intros id remote.
    destruct (VirtualPeer.findOrCreate p id) as [[tasks pos0] snapshot] eqn:Hfc.
    rewrite (handleMessage_marker_tasks _ _ _ _ _ _ Hfc).
    assert (Hpos' : tasks !! pos = Some t).
    { destruct (findOrCreate_cases _ _ _ _ _ Hfc) as [[_ ->]|(_ & -> & _ & _)];
        [done|]. by rewrite lookup_app_l. }
    case_decide as Hopen; [|exists t; by auto].
    destruct Hopen as [Hremote Hopen].
    destruct (decide (pos0 = pos)) as [->|Hne].
    - destruct (findOrCreate_cases _ _ _ _ _ Hfc)
        as [[Hfound ->]|(_ & _ & -> & _)]; [|lia].
      pose proof Hfound as (Hsnap & Hid & _)%list_find_Some.
      assert (snapshot = t) as -> by congruence.
      eexists. split; [by apply list_lookup_insert_eq|]. split; [done|].
      right. subst id. by split_and!.
    - exists t. rewrite list_lookup_insert_ne by done. by auto. }
  destruct c as [message remote|id|receiver amount]; cbn [call].
  - destruct (message_cases message) as [Hm | Hm]; rewrite Hm.
    + destruct (Hmarker (Message.value message) remote)
        as (t' & Ht' & Hid & [->|(Hv & Hr & Hf & Ho & ->)]).
      * exists t. by auto.
      * eexists. split; [exact Ht'|]. split; [done|]. right. left.
        exists remote. by rewrite Hv.
    + rewrite handleMessage_resource. simpl. rewrite list_lookup_fmap, Hpos. simpl.
      eexists. split; [done|]. split; [apply credit_id|].
      unfold VirtualPeer.credit. destruct (not_ _) eqn:Hopen; [|by left].
      right. right. by exists (Message.value message), remote.
  - unfold VirtualPeer.initiateSnapshot.
    change (Message.mk Message.snapshot id) with (marker id).
    destruct (Hmarker id None) as (t' & Ht' & Hid & [->|(_ & Hr & _)]); [|done].
    destruct (VirtualPeer.handleMessage p (marker id) None) as [q es].
    simpl in *. exists t. split; [done|]. split; [done|by left].
  - unfold VirtualPeer.initiatePayment.
    destruct (list_find (λ k, VirtualConnection.remote k = receiver) _) as [[? ?]|];
      cbn [fst VirtualPeer.with_resources VirtualPeer.snapshotTasks]; exists t;
      (split; [exact Hpos|]); (split; [done|by left]).
Qed.

Lemma calls_cons p c cs :
  calls p (c :: cs)
  = ((calls (call p c).1 cs).1, (call p c).2 ++ (calls (call p c).1 cs).2).
Proof.
  simpl. destruct (call p c) as [p1 es1]. simpl.
  by destruct (calls p1 cs) as [p2 es2].
Qed.

Lemma calls_connections cs p :
  VirtualPeer.connections (calls p cs).1 = VirtualPeer.connections p.
Proof.
  revert p. induction cs as [|c cs IH]; intros p; [done|].
  rewrite calls_cons. simpl. by rewrite IH, call_connections.
Qed.

Lemma remoteIndex_ext p q remote :
  VirtualPeer.connections p = VirtualPeer.connections q →
  VirtualPeer.remoteIndex p remote = VirtualPeer.remoteIndex q remote.
Proof. unfold VirtualPeer.remoteIndex. by intros ->. Qed.

Lemma call_resources p c :
  VirtualPeer.resources (call p c).1 = balanceAfter (VirtualPeer.resources p) c.
Proof.
  assert (Hmarker : ∀ id remote,
    VirtualPeer.resources (VirtualPeer.handleMessage p (marker id) remote).1
    = VirtualPeer.resources p).
  { intros id remote.
    destruct (VirtualPeer.findOrCreate p id) as [[tasks pos] snapshot] eqn:Hfc.
    destruct (VirtualPeer.handleMessage p (marker id) remote) as [p' es] eqn:Hrun.
    by destruct (handleMessage_snapshot _ _ _ _ _ _ _ _ Hrun Hfc) as (? & _). }
  destruct c as [message remote|id|receiver amount]; cbn [call balanceAfter].
  - destruct (message_cases message) as [Hm | Hm]; rewrite Hm.
    + cbn [marker Message.type]. by rewrite Hmarker.
    + by rewrite handleMessage_resource.
  - unfold VirtualPeer.initiateSnapshot.
    change (Message.mk Message.snapshot id) with (marker id).
    specialize (Hmarker id None).
    by destruct (VirtualPeer.handleMessage p (marker id) None) as [q es].
  - unfold VirtualPeer.initiatePayment.
    by destruct (list_find _ _) as [[? ?]|].
Qed.

Lemma balanceAfter_safe b c :
  safe (b + delta c) → balanceAfter (Num b) c = Num (b + delta c).
Proof.
  destruct c as [message remote|id|receiver amount]; cbn [balanceAfter delta].
  - destruct (Message.type message).
    + apply addNumber_safe.
    + intros _. f_equal. lia.
  - intros _. f_equal. lia.
  - intros Hs. unfold subNumber. by apply addNumber_safe.
Qed.

Lemma calls_resources cs p :
  VirtualPeer.resources (calls p cs).1 = foldl balanceAfter (VirtualPeer.resources p) cs.
Proof.
  revert p. induction cs as [|c cs IH]; intros p; [done|].
  rewrite calls_cons. cbn [fst foldl]. by rewrite IH, call_resources.
Qed.

(** X1. Over any sequence of calls on a peer, the balance at the end is
    the balance at the start with every transfer
    received added and every payment initiated subtracted, in order, those
    that threw included, by JavaScript addition and subtraction; markers and
    snapshots do not change it. When the balance starts as an integer and
    every intermediate result has a magnitude of at most 2^53, the balance
    at the end is exactly the start plus the transfers minus the
    payments. *)
Theorem balance_accounting cs p :
  VirtualPeer.resources (calls p cs).1 = foldl balanceAfter (VirtualPeer.resources p) cs
  ∧ ∀ b,
      VirtualPeer.resources p = Num b →
      safeFrom b (delta <$> cs) →
      VirtualPeer.resources (calls p cs).1 = Num (b + sumZ (delta <$> cs)).
Proof.
  split; [apply calls_resources|]. rewrite calls_resources.
  generalize (VirtualPeer.resources p). clear p.
  induction cs as [|c cs IH]; intros x b -> Hsafe.
  - simpl. f_equal. lia.
  - destruct Hsafe as [Hc Hcs]. cbn [foldl fmap list_fmap sumZ foldr].
    fold (sumZ (delta <$> cs)). rewrite (balanceAfter_safe _ _ Hc).
    rewrite (IH _ (b + delta c)%Z eq_refl Hcs). f_equal. lia.
Qed.

(** ** Closed channels *)

Lemma closed_call p c pos t i :
  VirtualPeer.snapshotTasks p !! pos = Some t →
  JsArray.get (SnapshotTask.receiveStatus t) i = Some true →
  ∃ t',
    VirtualPeer.snapshotTasks (call p c).1 !! pos = Some t'
    ∧ SnapshotTask.id t' = SnapshotTask.id t
    ∧ JsArray.get (SnapshotTask.receiveStatus t') i = Some true
    ∧ JsArray.get (SnapshotTask.capturedResources t') i
      = JsArray.get (SnapshotTask.capturedResources t) i.
Proof.
  intros Hpos Hclosed.
  destruct (call_task p c pos t Hpos)
    as (t' & Ht' & Hid & [->|[(remote & _ & _ & _ & Hopen & ->)
                             |(amount & remote & _ & Hopen & ->)]]).
  - by exists t.
  - eexists. split; [exact Ht'|]. split; [done|]. simpl. split; [|done].
    destruct (decide (VirtualPeer.remoteIndex p remote = i)) as [->|Hne].
    + apply get_set_eq.
    + by rewrite get_set_ne.
  - eexists. split; [exact Ht'|]. split; [done|]. simpl. split; [done|].
    apply get_set_ne. intros Heq. rewrite Heq, Hclosed in Hopen. done.
Qed.

(** X2. Whatever calls are made on a peer, a task stays at its place with
    its id, a flag that is [true] stays [true], and the vector slot of a
    channel whose flag is [true] never changes again. *)
Theorem closed_channel_is_frozen cs p pos t i :
  VirtualPeer.snapshotTasks p !! pos = Some t →
  JsArray.get (SnapshotTask.receiveStatus t) i = Some true →
  ∃ t',
    VirtualPeer.snapshotTasks (calls p cs).1 !! pos = Some t'
    ∧ SnapshotTask.id t' = SnapshotTask.id t
    ∧ JsArray.get (SnapshotTask.receiveStatus t') i = Some true
    ∧ JsArray.get (SnapshotTask.capturedResources t') i
      = JsArray.get (SnapshotTask.capturedResources t) i.
Proof.
  revert p t. induction cs as [|c cs IH]; intros p t Hpos Hclosed.
  - by exists t.
  - rewrite calls_cons. cbn [fst].
    destruct (closed_call p c pos t i Hpos Hclosed) as (t1 & Hpos1 & Hid1 & Hf1 & Hv1).
    destruct (IH _ _ Hpos1 Hf1) as (t2 & Hpos2 & Hid2 & Hf2 & Hv2).
    exists t2. split_and!; [done|congruence|done|congruence].
Qed.

(** ** Resources in transit *)

Lemma open_call p c pos t i x :
  VirtualPeer.snapshotTasks p !! pos = Some t →
  JsArray.get (SnapshotTask.receiveStatus t) (Idx i) = Some false →
  JsArray.get (SnapshotTask.capturedResources t) (Idx i) = Some (Num x) →
  ¬ closes p (SnapshotTask.id t) i c →
  safe (x + creditedAt p i c) →
  ∃ t',
    VirtualPeer.snapshotTasks (call p c).1 !! pos = Some t'
    ∧ SnapshotTask.id t' = SnapshotTask.id t
    ∧ JsArray.get (SnapshotTask.receiveStatus t') (Idx i) = Some false
    ∧ JsArray.get (SnapshotTask.capturedResources t') (Idx i)
      = Some (Num (x + creditedAt p i c)).
Proof.
  intros Hpos Hflag Hslot Hnot Hsafe.
  assert (Hsame : creditedAt p i c = 0%Z →
    ∃ t', Some t = Some t'
      ∧ SnapshotTask.id t' = SnapshotTask.id t
      ∧ JsArray.get (SnapshotTask.receiveStatus t') (Idx i) = Some false
      ∧ JsArray.get (SnapshotTask.capturedResources t') (Idx i)
        = Some (Num (x + creditedAt p i c))).
  { intros ->. exists t. rewrite Z.add_0_r. by split_and!. }
  assert (Hcase : (∃ amount remote, c = HandleMessage (transfer amount) remote)
                  ∨ ¬ (∃ amount remote, c = HandleMessage (transfer amount) remote)).
  { destruct c as [message remote| |]; [|right; by intros (? & ? & ?)..].
    destruct (message_cases message) as [Hm|Hm].
    - right. intros (amount & remote' & [= Heq _]). by rewrite Heq in Hm.
    - left. exists (Message.value message), remote. by rewrite <- Hm. }
  destruct Hcase as [(amount & remote & ->)|Hother].
  - cbn [call]. rewrite handleMessage_resource. cbn [fst VirtualPeer.snapshotTasks].
    rewrite list_lookup_fmap, Hpos. cbn [fmap option_fmap option_map].
    eexists. split; [done|]. split; [apply credit_id|].
    split; [by rewrite credit_receiveStatus|].
    cbn [creditedAt transfer Message.type Message.value] in Hsafe |- *.
    unfold VirtualPeer.credit. case_decide as Hi.
    + rewrite Hi, Hflag. cbn [not_ SnapshotTask.capturedResources].
      by rewrite get_set_eq, Hslot, plus_safe.
    + rewrite Z.add_0_r. destruct (not_ _); [|done].
      cbn [SnapshotTask.capturedResources]. by rewrite get_set_ne.
  - destruct (call_task p c pos t Hpos)
      as (t' & Ht' & Hid & [->|[(remote & -> & _ & _ & Hopen & ->)
                               |(amount & remote & -> & _)]]).
    + rewrite Ht'. apply Hsame.
      destruct c as [message remote| |]; [|done..].
      destruct message as [[] v]; [|done].
      exfalso. apply Hother. by exists v, remote.
    + eexists. split; [exact Ht'|]. split; [done|].
      cbn [SnapshotTask.receiveStatus SnapshotTask.capturedResources creditedAt
           marker Message.type].
      rewrite Z.add_0_r. split; [|done].
      rewrite get_set_ne; [done|]. intros Hi. apply Hnot. by split_and!.
    + exfalso. apply Hother. by exists amount, remote.
Qed.

Lemma closes_ext p q id i c :
  VirtualPeer.connections p = VirtualPeer.connections q →
  closes p id i c ↔ closes q id i c.
Proof.
  intros Hks. destruct c as [message remote| |]; [|done..].
  simpl. by rewrite (remoteIndex_ext p q remote Hks).
Qed.

Lemma creditedAt_ext p q i c :
  VirtualPeer.connections p = VirtualPeer.connections q →
  creditedAt p i c = creditedAt q i c.
Proof.
  intros Hks. destruct c as [message remote| |]; [|done..].
  simpl. by rewrite (remoteIndex_ext p q remote Hks).
Qed.

(** X3. A task has the flag of channel [i] [false] and the integer [x]
    in slot [i]. Over any calls that do not include the
    marker of the task's snapshot arriving on channel [i], and during which
    the sums in the slot keep a magnitude of at most 2^53, the flag stays
    [false] and the slot ends as [x] plus the amounts of all transfers
    received on channel [i]: what arrives on a channel before its marker is
    recorded for it. *)
Theorem in_transit_accumulates cs p pos t i x :
  VirtualPeer.snapshotTasks p !! pos = Some t →
  JsArray.get (SnapshotTask.receiveStatus t) (Idx i) = Some false →
  JsArray.get (SnapshotTask.capturedResources t) (Idx i) = Some (Num x) →
  Forall (λ c, ¬ closes p (SnapshotTask.id t) i c) cs →
  safeFrom x (creditedAt p i <$> cs) →
  ∃ t',
    VirtualPeer.snapshotTasks (calls p cs).1 !! pos = Some t'
    ∧ SnapshotTask.id t' = SnapshotTask.id t
    ∧ JsArray.get (SnapshotTask.receiveStatus t') (Idx i) = Some false
    ∧ JsArray.get (SnapshotTask.capturedResources t') (Idx i)
      = Some (Num (x + sumZ (creditedAt p i <$> cs))).
Proof.
  revert p t x. induction cs as [|c cs IH]; intros p t x Hpos Hflag Hslot Hcs Hsafe.
  - exists t. cbn. rewrite Z.add_0_r. by split_and!.
  - apply Forall_cons in Hcs as [Hc Hcs]. destruct Hsafe as [Hsc Hscs].
    destruct (open_call p c pos t i x Hpos Hflag Hslot Hc Hsc)
      as (t1 & Hpos1 & Hid1 & Hflag1 & Hslot1).
    assert (Hks : VirtualPeer.connections (call p c).1 = VirtualPeer.connections p)
      by apply call_connections.
    assert (Heq : creditedAt (call p c).1 i <$> cs = creditedAt p i <$> cs).
    { apply list_fmap_ext. intros ? c' _. by apply creditedAt_ext. }
    destruct (IH (call p c).1 t1 _ Hpos1 Hflag1 Hslot1) as (t2 & Hpos2 & Hid2 & Hflag2 & Hslot2).
    { eapply Forall_impl; [exact Hcs|]. intros c' Hc'. simpl in Hc'.
      rewrite Hid1. by rewrite (closes_ext _ p _ _ _ Hks). }
    { by rewrite Heq. }
    exists t2. rewrite calls_cons. cbn [fst]. split_and!; [done|congruence|done|].
    rewrite Hslot2, Heq. do 2 f_equal. cbn [fmap list_fmap sumZ foldr].
    fold (sumZ (creditedAt p i <$> cs)). lia.
Qed.

(** ** Completed tasks *)

(** A completion is logged only by a marker with a sender, for the task of
    the marker's snapshot, when the flag at the sender's position was not
    [true]. *)
Lemma call_completed p c id v :
  Completed id v ∈ (call p c).2 →
  ∃ remote tasks pos snapshot,
    c = HandleMessage (marker id) remote
    ∧ remote ≠ None
    ∧ VirtualPeer.findOrCreate p id = (tasks, pos, snapshot)
    ∧ not_ (JsArray.get (SnapshotTask.receiveStatus snapshot)
              (VirtualPeer.remoteIndex p remote)) = true
    ∧ v = SnapshotTask.capturedResources snapshot.
Proof.
  assert (Hsend : ∀ m, Completed id v ∉ VirtualPeer.sendAll p m).
  { intros m (k & Hk & _)%list_elem_of_fmap. done. }
  destruct c as [message remote|id'|receiver amount]; cbn [call].
  - destruct message as [[] id'].
    { change (Message.mk Message.resource id') with (transfer id').
      rewrite handleMessage_resource. cbn [snd].
      intros Hin. by apply not_elem_of_nil in Hin. }
    change (Message.mk Message.snapshot id') with (marker id').
    destruct (VirtualPeer.findOrCreate p id') as [[tasks pos] snapshot] eqn:Hfc.
    pose proof (findOrCreate_found _ _ _ _ _ Hfc) as (_ & Hid & _)%list_find_Some.
    unfold VirtualPeer.handleMessage, marker. cbn [Message.type Message.value].
    rewrite Hfc. destruct remote as [S|]; cbv zeta.
    + destruct (not_ (JsArray.get (SnapshotTask.receiveStatus snapshot)
                        (VirtualPeer.remoteIndex p (Some S)))) eqn:Hopen.
      * destruct (decide (VirtualPeer.listening _ = 0)); cbn [snd].
        -- intros [= Hid' ->]%list_elem_of_singleton. simpl in Hid'.
           assert (id' = id) as -> by congruence.
           exists (Some S), tasks, pos, snapshot. by split_and!.
        -- intros Hin. by apply Hsend in Hin.
      * cbn [snd]. intros Hin. by apply not_elem_of_nil in Hin.
    + cbn [snd]. intros Hin. by apply Hsend in Hin.
  - unfold VirtualPeer.initiateSnapshot, VirtualPeer.handleMessage.
    cbn [Message.type Message.value].
    destruct (VirtualPeer.findOrCreate p id') as [[tasks pos] snapshot].
    cbn [snd]. intros [Hin|Hin]%elem_of_cons; [done|]. by apply Hsend in Hin.
  - unfold VirtualPeer.initiatePayment.
    destruct (list_find _ _) as [[? k]|]; cbn [fst snd].
    + by intros [= ]%list_elem_of_singleton.
    + intros Hin. by apply not_elem_of_nil in Hin.
Qed.

Lemma neighbour_closed p c n t :
  n = length (VirtualPeer.connections p) →
  closedFor n t →
  fromNeighbour p c →
  ∀ message remote,
    c = HandleMessage message remote →
    (Message.type message = Message.snapshot → remote ≠ None) →
    not_ (JsArray.get (SnapshotTask.receiveStatus t) (VirtualPeer.remoteIndex p remote))
    = false.
Proof.
  intros -> Hclosed Hfrom message remote -> Hsender. simpl in Hfrom.
  assert (Hknown : ∃ i, VirtualPeer.remoteIndex p remote = Idx i).
  { destruct Hfrom as [[Htype ->]|Hi]; [|done]. by destruct (Hsender Htype). }
  destruct Hknown as [i Hi].
  destruct (remoteIndex_cases p remote) as [Hm|(i' & Hi' & Hlt)]; [congruence|].
  rewrite Hi'. by rewrite (Hclosed i' Hlt).
Qed.

Lemma complete_call p c id pos t :
  list_find (hasId id) (VirtualPeer.snapshotTasks p) = Some (pos, t) →
  closedFor (length (VirtualPeer.connections p)) t →
  fromNeighbour p c →
  list_find (hasId id) (VirtualPeer.snapshotTasks (call p c).1) = Some (pos, t)
  ∧ ∀ v, Completed id v ∉ (call p c).2.
Proof.
  intros Hfound Hclosed Hfrom.
  pose proof Hfound as (Hpos & Hid & Hleast)%list_find_Some.
  split.
  - apply list_find_Some. split_and!; [|done|].
    + destruct (call_task p c pos t Hpos)
        as (t' & Ht' & _ & [->|[(remote & Hc & Hr & _ & Hopen & _)
                               |(amount & remote & Hc & Hopen & _)]]); [done|..];
        exfalso;
        rewrite (neighbour_closed p c _ t eq_refl Hclosed Hfrom _ _ Hc) in Hopen;
        done.
    + intros j z Hj Hlt.
      assert (Hjlt : j < length (VirtualPeer.snapshotTasks p)).
      { apply lookup_lt_Some in Hpos. lia. }
      destruct (lookup_lt_is_Some_2 _ _ Hjlt) as [y Hy].
      destruct (call_task p c j y Hy) as (y' & Hy' & Hidy & _).
      assert (z = y') as -> by congruence.
      rewrite Hidy. by eapply Hleast.
  - intros v (remote & tasks & pos' & snapshot & Hc & Hr & Hfc & Hopen & _)%call_completed.
    unfold VirtualPeer.findOrCreate in Hfc. rewrite Hfound in Hfc.
    injection Hfc as _ _ <-.
    rewrite (neighbour_closed p c _ t eq_refl Hclosed Hfrom _ _ Hc) in Hopen; done.
Qed.

Lemma fromNeighbour_ext p q c :
  VirtualPeer.connections p = VirtualPeer.connections q →
  fromNeighbour p c → fromNeighbour q c.
Proof.
  intros Hks. destruct c as [message remote| |]; [|done..].
  simpl. by rewrite (remoteIndex_ext p q remote Hks).
Qed.

Lemma complete_calls cs p id pos t :
  list_find (hasId id) (VirtualPeer.snapshotTasks p) = Some (pos, t) →
  closedFor (length (VirtualPeer.connections p)) t →
  Forall (fromNeighbour p) cs →
  list_find (hasId id) (VirtualPeer.snapshotTasks (calls p cs).1) = Some (pos, t)
  ∧ ∀ v, Completed id v ∉ (calls p cs).2.
Proof.
  revert p. induction cs as [|c cs IH]; intros p Hfound Hclosed Hcs.
  - split; [done|]. intros v Hv. by apply not_elem_of_nil in Hv.
  - apply Forall_cons in Hcs as [Hc Hcs].
    destruct (complete_call p c id pos t Hfound Hclosed Hc) as [Hfound1 Hlog1].
    assert (Hks : VirtualPeer.connections p = VirtualPeer.connections (call p c).1)
      by (by rewrite call_connections).
    destruct (IH (call p c).1) as [Hfound2 Hlog2].
    + done.
    + by rewrite <- Hks.
    + eapply Forall_impl; [exact Hcs|]. intros c'. by apply fromNeighbour_ext.
    + rewrite calls_cons. cbn [fst snd]. split; [done|].
      intros v [Hv|Hv]%elem_of_app; [by apply (Hlog1 v)|by apply (Hlog2 v)].
Qed.

(** X4. Once the task found for a snapshot has the flags of all the peer's
    connections [true], it is final: over any calls that come from the
    driver or from peers the peer has a connection to, the task is not
    changed at all and no completion is logged for the snapshot again. *)
Theorem complete_task_is_final cs p id pos t :
  list_find (hasId id) (VirtualPeer.snapshotTasks p) = Some (pos, t) →
  closedFor (length (VirtualPeer.connections p)) t →
  Forall (fromNeighbour p) cs →
  list_find (hasId id) (VirtualPeer.snapshotTasks (calls p cs).1) = Some (pos, t)
  ∧ ∀ v, Completed id v ∉ (calls p cs).2.
Proof. apply complete_calls. Qed.

(** ** Senders without a connection *)

(** X5. A message (marker or transfer) whose sender has no connection in the
    peer, or that comes without a sender, changes no flag and no vector slot
    at any position of any task the peer already has: [indexOf] gives [-1],
    and only the property of that name is written. *)
Theorem stranger_touches_no_slot p message remote pos t :
  VirtualPeer.remoteIndex p remote = Minus1 →
  VirtualPeer.snapshotTasks p !! pos = Some t →
  ∃ t',
    VirtualPeer.snapshotTasks (VirtualPeer.handleMessage p message remote).1 !! pos
    = Some t'
    ∧ SnapshotTask.id t' = SnapshotTask.id t
    ∧ JsArray.elems (SnapshotTask.receiveStatus t')
      = JsArray.elems (SnapshotTask.receiveStatus t)
    ∧ JsArray.elems (SnapshotTask.capturedResources t')
      = JsArray.elems (SnapshotTask.capturedResources t).
Proof.
  intros Hi Hpos.
  destruct (call_task p (HandleMessage message remote) pos t Hpos)
    as (t' & Ht' & Hid & [->|[(remote' & [= _ <-] & _ & _ & _ & ->)
                             |(amount & remote' & [= _ <-] & _ & ->)]]).
  - by exists t.
  - eexists. split; [exact Ht'|]. by rewrite Hi.
  - eexists. split; [exact Ht'|]. by rewrite Hi.
Qed.

(** ** A peer with one connection *)

Lemma listening_single (id : Z) (m : option bool) (v : JsArray.t number) :
  VirtualPeer.listening (SnapshotTask.mk id (JsArray.mk [Some true] m) v) = 0.
Proof. done. Qed.

(** X6. A peer with a single connection never forwards a marker that comes
    from its only neighbour: the marker closes the only flag, so the task is
    complete in the same call (or the marker is a duplicate), and nothing is
    sent on the connection. *)
Theorem leaf_never_forwards p k id e :
  VirtualPeer.connections p = [k] →
  Forall (λ t, JsArray.length (SnapshotTask.receiveStatus t) ≤ 1)
    (VirtualPeer.snapshotTasks p) →
  e ∈ (VirtualPeer.handleMessage p (marker id) (Some (VirtualConnection.remote k))).2 →
  ¬ isSend e.
Proof.
  intros Hk Hshort.
  assert (Hi : VirtualPeer.remoteIndex p (Some (VirtualConnection.remote k)) = Idx 0).
  { unfold VirtualPeer.remoteIndex. rewrite Hk. simpl. by rewrite decide_True. }
  destruct (VirtualPeer.findOrCreate p id) as [[tasks pos] snapshot] eqn:Hfc.
  assert (Hlen : JsArray.length (SnapshotTask.receiveStatus snapshot) ≤ 1).
  { destruct (findOrCreate_cases _ _ _ _ _ Hfc)
      as [[Hfound _]|(_ & _ & _ & ->)].
    - apply list_find_Some in Hfound as (Hpos & _).
      by eapply (Forall_lookup_1 _ _ _ _ Hshort Hpos).
    - unfold VirtualPeer.newSnapshotTask, JsArray.length. simpl.
      rewrite Hk. simpl. lia. }
  unfold VirtualPeer.handleMessage, marker. cbn [Message.type Message.value].
  rewrite Hfc, Hi. cbv zeta.
  destruct (not_ _); [|intros Hin; by apply not_elem_of_nil in Hin].
  assert (Hset : JsArray.set (SnapshotTask.receiveStatus snapshot) (Idx 0) true
                 = JsArray.mk [Some true]
                     (JsArray.minus1 (SnapshotTask.receiveStatus snapshot))).
  { unfold JsArray.length in Hlen. unfold JsArray.set, JsArray.store.
    destruct (JsArray.elems (SnapshotTask.receiveStatus snapshot)) as [|x [|y l]];
      simpl in *; [done|done|lia]. }
  rewrite Hset, listening_single. rewrite decide_True by done. cbn [snd].
  intros ->%list_elem_of_singleton Hs. exact Hs.
Qed.

(** ** The operations of the simulation as method calls *)

Lemma initiateSnapshot_invoke w a id :
  World.initiateSnapshot w a id = invoke w a (InitiateSnapshot id).
Proof.
  unfold World.initiateSnapshot, invoke. destruct (World.peers w !! a) as [p|]; [|done].
  cbn [call]. by destruct (VirtualPeer.initiateSnapshot p id).
Qed.

Lemma initiatePayment_invoke w a receiver amount :
  (World.initiatePayment w a receiver amount).1
  = invoke w a (InitiatePayment receiver amount).
Proof.
  unfold World.initiatePayment, invoke. destruct (World.peers w !! a) as [p|]; [|done].
  cbn [call]. by destruct (VirtualPeer.initiatePayment p receiver amount) as [[? ?] ?].
Qed.

Lemma deliver_invoke w tm :
  World.deliver w tm
  = invoke (World.log w (LogReceived (conn tm) (msg tm)))
      (VirtualConnection.remote (conn tm))
      (HandleMessage (msg tm) (Some (VirtualConnection.local (conn tm)))).
Proof.
  unfold World.deliver, invoke. cbn [World.log World.peers].
  destruct (World.peers w !! _) as [p|]; [|done].
  cbn [call]. by destruct (VirtualPeer.handleMessage p _ _).
Qed.

Lemma performAll_fields self es w :
  World.clock (World.performAll self w es) = World.clock w
  ∧ World.timers (World.performAll self w es)
    = World.timers w ++ sendTimers (World.clock w) es.
Proof.
  unfold World.performAll. revert w.
  induction es as [|e es IH]; intros w; simpl.
  - by rewrite app_nil_r.
  - destruct (IH (World.perform self w e)) as [-> ->].
    destruct e as [k m|id v|id]; simpl; [|done..]. by rewrite <- app_assoc.
Qed.

Lemma invoke_fields w a c p :
  World.peers w !! a = Some p →
  World.peers (invoke w a c) = <[a := (call p c).1]> (World.peers w)
  ∧ World.clock (invoke w a c) = World.clock w
  ∧ World.timers (invoke w a c)
    = World.timers w ++ sendTimers (World.clock w) (call p c).2.
Proof.
  intros Hp. unfold invoke. rewrite Hp.
  rewrite performAll_peers.
  by destruct (performAll_fields a (call p c).2
                 (World.with_peers w (<[a := (call p c).1]> (World.peers w)))) as [-> ->].
Qed.

Lemma invoke_links w a c x : links (invoke w a c) x = links w x.
Proof.
  unfold links. destruct (World.peers w !! a) as [p|] eqn:Hp.
  - destruct (invoke_fields w a c p Hp) as (-> & _).
    destruct (decide (a = x)) as [->|Hne].
    + rewrite lookup_insert_eq, Hp. simpl. by rewrite call_connections.
    + by rewrite lookup_insert_ne.
  - unfold invoke. by rewrite Hp.
Qed.

(** Every message a call sends goes out on a connection of the peer. *)
Lemma call_sends p c k message :
  Send k message ∈ (call p c).2 → k ∈ VirtualPeer.connections p.
Proof.
  assert (Hall : ∀ m, Send k message ∈ VirtualPeer.sendAll p m →
                      k ∈ VirtualPeer.connections p).
  { intros m (k' & [= -> _] & Hk)%list_elem_of_fmap. done. }
  destruct c as [msg' remote|id|receiver amount]; cbn [call].
  - destruct msg' as [[] v].
    { change (Message.mk Message.resource v) with (transfer v).
      rewrite handleMessage_resource. cbn [snd].
      intros Hin. by apply not_elem_of_nil in Hin. }
    unfold VirtualPeer.handleMessage. cbn [Message.type Message.value].
    destruct (VirtualPeer.findOrCreate p v) as [[tasks pos] snapshot].
    destruct remote as [S|]; cbv zeta; [|by eauto].
    destruct (not_ _).
    + destruct (decide _); cbn [snd]; [|by eauto].
      by intros [= ]%list_elem_of_singleton.
    + cbn [snd]. intros Hin. by apply not_elem_of_nil in Hin.
  - unfold VirtualPeer.initiateSnapshot, VirtualPeer.handleMessage.
    cbn [Message.type Message.value].
    destruct (VirtualPeer.findOrCreate p id) as [[tasks pos] snapshot]. cbn [snd].
    intros [Hin|Hin]%elem_of_cons; [done|by eauto].
  - unfold VirtualPeer.initiatePayment.
    destruct (list_find _ _) as [[pos k']|] eqn:Hf; cbn [fst snd].
    + intros [= -> _]%list_elem_of_singleton.
      apply list_find_Some in Hf as (Hk & _). by eapply list_elem_of_lookup_2.
    + intros Hin. by apply not_elem_of_nil in Hin.
Qed.

Lemma sendTimers_conn clock es tm :
  tm ∈ sendTimers clock es → ∃ message, Send (conn tm) message ∈ es.
Proof.
  unfold sendTimers. intros (e & He & Htm)%list_elem_of_omap.
  destruct e as [k m| |]; [|done..]. injection Htm as <-. by exists m.
Qed.

(** ** Connecting peers *)

Lemma with_connections_same p :
  VirtualPeer.with_connections p (VirtualPeer.connections p ++ []) = p.
Proof. destruct p. unfold VirtualPeer.with_connections. simpl. by rewrite app_nil_r. Qed.

(** The peers after [connect(a, b, delayab, delayba)]: [a] got the
    connection to [b] at the end of its list, then [b] the connection to
    [a]; nothing else changed. *)
Lemma connect_lookup w a b delayab delayba c :
  is_Some (World.peers w !! a) → is_Some (World.peers w !! b) →
  World.peers (World.connect w a b delayab delayba) !! c
  = (λ pc, VirtualPeer.with_connections pc
             (VirtualPeer.connections pc
              ++ (if decide (c = a) then [VirtualConnection.mk a b delayab] else [])
              ++ (if decide (c = b) then [VirtualConnection.mk b a delayba] else [])))
    <$> World.peers w !! c.
Proof.
  intros [pa Ha] [pb Hb]. unfold World.connect, World.push. rewrite Ha.
  cbn [World.with_peers World.peers].
  destruct (decide (a = b)) as [<-|Hab].
  - rewrite lookup_insert_eq. cbn [World.with_peers World.peers].
    destruct (decide (c = a)) as [->|Hca].
    + rewrite lookup_insert_eq, Ha. cbn [fmap option_fmap option_map].
      unfold VirtualPeer.with_connections. cbn [VirtualPeer.connections
        VirtualPeer.name VirtualPeer.resources VirtualPeer.snapshotTasks].
      by rewrite <- app_assoc.
    + rewrite !lookup_insert_ne by done.
      destruct (World.peers w !! c) as [pc|]; [|done].
      cbn [fmap option_fmap option_map app]. by rewrite with_connections_same.
  - rewrite lookup_insert_ne, Hb by done. cbn [World.with_peers World.peers].
    destruct (decide (c = b)) as [->|Hcb].
    + rewrite lookup_insert_eq, Hb. rewrite (decide_False (P := b = a)) by done.
      done.
    + rewrite lookup_insert_ne by done.
      destruct (decide (c = a)) as [->|Hca].
      * rewrite lookup_insert_eq, Ha. cbn [fmap option_fmap option_map].
        by rewrite app_nil_r.
      * rewrite lookup_insert_ne by done.
        destruct (World.peers w !! c) as [pc|]; [|done].
        cbn [fmap option_fmap option_map app]. by rewrite with_connections_same.
Qed.

Lemma connect_fields w a b delayab delayba :
  World.clock (World.connect w a b delayab delayba) = World.clock w
  ∧ World.timers (World.connect w a b delayab delayba) = World.timers w
  ∧ World.console (World.connect w a b delayab delayba) = World.console w.
Proof.
  unfold World.connect, World.push.
  destruct (World.peers w !! a); simpl; destruct (_ !! b); done.
Qed.

Lemma remoteIndex_app p q ks S i :
  VirtualPeer.connections q = VirtualPeer.connections p ++ ks →
  VirtualPeer.remoteIndex p (Some S) = Idx i →
  VirtualPeer.remoteIndex q (Some S) = Idx i.
Proof.
  unfold VirtualPeer.remoteIndex. intros ->.
  destruct (list_find _ (_ <$> VirtualPeer.connections p)) as [[j x]|] eqn:Hf; [|done].
  intros [= ->]. rewrite fmap_app. by rewrite (list_find_app_l _ _ _ _ _ Hf).
Qed.

(** X7. [connect(a, b, ...)] on two existing peers changes only the
    connection lists: each peer keeps its name, balance and tasks, and its
    old connections keep their positions, so every sender keeps the flag and
    slot position it had, and a payment to a peer that was already
    connected still goes out on the same, first connection. Afterwards [a]
    can pay [b] and [b] can pay [a] without error. *)
Theorem connect_keeps_positions w a b delayab delayba c pc :
  is_Some (World.peers w !! a) → is_Some (World.peers w !! b) →
  World.peers w !! c = Some pc →
  let w' := World.connect w a b delayab delayba in
  (∃ pc' ks,
     World.peers w' !! c = Some pc'
     ∧ VirtualPeer.name pc' = VirtualPeer.name pc
     ∧ VirtualPeer.resources pc' = VirtualPeer.resources pc
     ∧ VirtualPeer.snapshotTasks pc' = VirtualPeer.snapshotTasks pc
     ∧ VirtualPeer.connections pc' = VirtualPeer.connections pc ++ ks
     ∧ (∀ S i, VirtualPeer.remoteIndex pc (Some S) = Idx i →
               VirtualPeer.remoteIndex pc' (Some S) = Idx i)
     ∧ (∀ r amount pos k,
          list_find (λ k, VirtualConnection.remote k = r) (VirtualPeer.connections pc)
          = Some (pos, k) →
          (VirtualPeer.initiatePayment pc' r amount).1.2 = [Send k (transfer amount)]))
  ∧ (∀ amount, (World.initiatePayment w' a b amount).2 = Returned)
  ∧ (∀ amount, (World.initiatePayment w' b a amount).2 = Returned).
Proof.
  intros Ha Hb Hc w'.
  assert (Hpay : ∀ x y amount kxy,
    (∃ px, World.peers w' !! x = Some px
           ∧ kxy ∈ VirtualPeer.connections px
           ∧ VirtualConnection.remote kxy = y) →
    (World.initiatePayment w' x y amount).2 = Returned).
  { intros x y amount kxy (px & Hx & Hin & Hr).
    unfold World.initiatePayment, VirtualPeer.initiatePayment. rewrite Hx.
    cbn [VirtualPeer.with_resources VirtualPeer.connections].
    destruct (list_find _ _) as [[? ?]|] eqn:Hf; [done|].
    apply list_find_None in Hf. rewrite Forall_forall in Hf. by destruct (Hf _ Hin). }
  split; [|split].
  - pose proof (connect_lookup w a b delayab delayba c Ha Hb) as Hl.
    rewrite Hc in Hl. cbn [fmap option_fmap option_map] in Hl.
    set (ks := (if decide (c = a) then [VirtualConnection.mk a b delayab] else [])
               ++ (if decide (c = b) then [VirtualConnection.mk b a delayba] else []))
      in Hl.
    exists (VirtualPeer.with_connections pc (VirtualPeer.connections pc ++ ks)), ks.
    split; [exact Hl|].
    split_and!; [done|done|done|done| |].
    + intros S i. by apply (remoteIndex_app pc _ ks S i).
    + intros r amount pos k Hf. unfold VirtualPeer.initiatePayment.
      cbn [VirtualPeer.with_resources VirtualPeer.with_connections VirtualPeer.connections].
      by rewrite (list_find_app_l _ _ _ _ _ Hf).
  - intros amount. destruct Ha as [pa Ha'].
    pose proof (connect_lookup w a b delayab delayba a (ex_intro _ pa Ha') Hb) as Hl.
    rewrite Ha' in Hl. simpl in Hl.
    eapply (Hpay a b amount (VirtualConnection.mk a b delayab)).
    eexists. split; [exact Hl|]. split; [|done]. simpl.
    rewrite decide_True by done. apply elem_of_app. right. left.
  - intros amount. destruct Hb as [pb Hb'].
    pose proof (connect_lookup w a b delayab delayba b Ha (ex_intro _ pb Hb')) as Hl.
    rewrite Hb' in Hl. simpl in Hl.
    eapply (Hpay b a amount (VirtualConnection.mk b a delayba)).
    eexists. split; [exact Hl|]. split; [|done]. simpl.
    rewrite (decide_True (P := b = b)) by done.
    apply elem_of_app. right. apply elem_of_app. right. left.
Qed.

(** ** Every message comes from a neighbour *)

Lemma alloc_fresh w name resources :
  World.peers w !! (World.alloc w name resources).1 = None.
Proof. apply not_elem_of_dom, is_fresh. Qed.

Lemma links_alloc w name resources c :
  links (World.alloc w name resources).2 c
  = if decide (c = (World.alloc w name resources).1) then Some [] else links w c.
Proof.
  unfold links, World.alloc. cbn [snd fst World.with_peers World.peers].
  case_decide as Hc.
  - subst c. by rewrite lookup_insert_eq.
  - by rewrite lookup_insert_ne.
Qed.

Lemma links_connect w a b delayab delayba c :
  is_Some (World.peers w !! a) → is_Some (World.peers w !! b) →
  links (World.connect w a b delayab delayba) c
  = (λ ks, ks ++ (if decide (c = a) then [VirtualConnection.mk a b delayab] else [])
              ++ (if decide (c = b) then [VirtualConnection.mk b a delayba] else []))
    <$> links w c.
Proof.
  intros Ha Hb. unfold links. rewrite (connect_lookup _ _ _ _ _ _ Ha Hb).
  by destruct (World.peers w !! c).
Qed.

Lemma linked_alloc w name resources : linked w → linked (World.alloc w name resources).2.
Proof.
  intros Hw a ks k. rewrite links_alloc. case_decide as Ha.
  - intros [= <-] Hk. by apply not_elem_of_nil in Hk.
  - intros Hks Hk. destruct (Hw a ks k Hks Hk) as (Hl & ks' & Hks' & k' & Hk' & Hr).
    split; [done|]. exists ks'. split; [|by exists k'].
    rewrite links_alloc, decide_False; [done|]. intros Heq.
    unfold links in Hks'. by rewrite Heq, alloc_fresh in Hks'.
Qed.

Lemma linked_connect w a b delayab delayba :
  is_Some (World.peers w !! a) → is_Some (World.peers w !! b) →
  linked w → linked (World.connect w a b delayab delayba).
Proof.
  intros Ha Hb Hw c ks k. rewrite (links_connect _ _ _ _ _ _ Ha Hb).
  destruct (links w c) as [ks0|] eqn:Hc; [|done]. intros [= <-].
  assert (Hab : ∃ ksb, links (World.connect w a b delayab delayba) b = Some ksb
                       ∧ VirtualConnection.mk b a delayba ∈ ksb).
  { rewrite (links_connect _ _ _ _ _ _ Ha Hb). destruct Hb as [pb Hb'].
    unfold links at 1. rewrite Hb'. eexists. split; [done|].
    rewrite (decide_True (P := b = b)) by done.
    apply elem_of_app. right. apply elem_of_app. right. left. }
  assert (Hba : ∃ ksa, links (World.connect w a b delayab delayba) a = Some ksa
                       ∧ VirtualConnection.mk a b delayab ∈ ksa).
  { rewrite (links_connect _ _ _ _ _ _ Ha Hb). destruct Ha as [pa Ha'].
    unfold links at 1. rewrite Ha'. eexists. split; [done|].
    rewrite (decide_True (P := a = a)) by done.
    apply elem_of_app. right. apply elem_of_app. left. left. }
  intros [Hk|[Hk|Hk]%elem_of_app]%elem_of_app.
  - destruct (Hw c ks0 k Hc Hk) as (Hl & ks' & Hks' & k' & Hk' & Hr).
    split; [done|]. rewrite (links_connect _ _ _ _ _ _ Ha Hb), Hks'.
    eexists. split; [done|]. exists k'. split; [|done]. apply elem_of_app. by left.
  - case_decide as Hca; [|by apply not_elem_of_nil in Hk].
    apply list_elem_of_singleton in Hk as ->. subst c. split; [done|].
    destruct Hab as (ksb & Hksb & Hin). exists ksb. split; [done|].
    by exists (VirtualConnection.mk b a delayba).
  - case_decide as Hcb; [|by apply not_elem_of_nil in Hk].
    apply list_elem_of_singleton in Hk as ->. subst c. split; [done|].
    destruct Hba as (ksa & Hksa & Hin). exists ksa. split; [done|].
    by exists (VirtualConnection.mk a b delayab).
Qed.

Lemma linked_ext w w' : (∀ x, links w' x = links w x) → linked w → linked w'.
Proof.
  intros Hl Hw a ks k. rewrite Hl. intros Hks Hk.
  destruct (Hw a ks k Hks Hk) as (? & ks' & Hks' & Hk').
  split; [done|]. exists ks'. by rewrite Hl.
Qed.

Lemma timersLinked_invoke w a c :
  linked w → timersLinked w → timersLinked (invoke w a c).
Proof.
  intros Hl Hw tm. destruct (World.peers w !! a) as [p|] eqn:Hp.
  - destruct (invoke_fields w a c p Hp) as (_ & _ & ->).
    rewrite invoke_links. intros [Hold|Hnew]%elem_of_app; [by apply Hw|].
    apply sendTimers_conn in Hnew as [message Hsend%call_sends].
    assert (Hks : links w a = Some (VirtualPeer.connections p))
      by (unfold links; by rewrite Hp).
    destruct (Hl a _ _ Hks Hsend) as [-> _]. eauto.
  - unfold invoke. rewrite Hp. apply Hw.
Qed.

Lemma linked_step w w' :
  World.step w w' → linked w ∧ timersLinked w → linked w' ∧ timersLinked w'.
Proof.
  destruct 1 as [w name resources|w a b dab dba Ha Hb|w a id _|w a receiver amount _ _
                 |w c Hc|w older tm newer Hts Hdue Hfirst]; intros [Hl Ht].
  - split; [by apply linked_alloc|].
    intros tm Htm. destruct (Ht tm Htm) as (ks & Hks & Hin). exists ks. split; [|done].
    rewrite links_alloc, decide_False; [done|]. intros Heq.
    unfold links in Hks. by rewrite Heq, alloc_fresh in Hks.
  - split; [by apply linked_connect|].
    intros tm. destruct (connect_fields w a b dab dba) as (_ & -> & _). intros Htm.
    destruct (Ht tm Htm) as (ks & Hks & Hin).
    rewrite (links_connect _ _ _ _ _ _ Ha Hb), Hks. eexists. split; [done|].
    apply elem_of_app. by left.
  - rewrite initiateSnapshot_invoke. split.
    + eapply linked_ext; [apply invoke_links|done].
    + by apply timersLinked_invoke.
  - rewrite initiatePayment_invoke. split.
    + eapply linked_ext; [apply invoke_links|done].
    + by apply timersLinked_invoke.
  - done.
  - rewrite deliver_invoke.
    assert (Hl' : linked (World.log (World.with_timers w (older ++ newer))
                            (LogReceived (conn tm) (msg tm)))) by done.
    split.
    + eapply linked_ext; [apply invoke_links|done].
    + apply timersLinked_invoke; [done|]. intros tm' Htm'. apply Ht.
      rewrite Hts. simpl in Htm'. apply elem_of_app in Htm' as [?|?];
        apply elem_of_app; [by left|right; by right].
Qed.

(** X8. In every state the program can reach, each connection starts at the
    peer that holds it and leads to an existing peer that has a connection
    back, and every message still to be delivered will be handled by an
    existing peer that has a connection to its sender: [indexOf] finds the
    sender, so the cases of an unknown sender never occur in a run. *)
Theorem senders_are_neighbours w :
  World.reachable w →
  linked w
  ∧ ∀ tm,
      tm ∈ World.timers w →
      ∃ p i,
        World.peers w !! VirtualConnection.remote (conn tm) = Some p
        ∧ VirtualPeer.remoteIndex p (Some (VirtualConnection.local (conn tm))) = Idx i.
Proof.
  intros Hreach.
  assert (Hinv : linked w ∧ timersLinked w).
  { induction Hreach as [|w w' _ IH Hstep].
    - split; [intros a ks k Hks|intros tm Htm]; [done|by apply not_elem_of_nil in Htm].
    - by eapply linked_step. }
  destruct Hinv as [Hl Ht]. split; [done|]. intros tm Htm.
  destruct (Ht tm Htm) as (ks & Hks & Hin).
  destruct (Hl _ _ _ Hks Hin) as (_ & ks' & Hks' & k' & Hk' & Hr).
  unfold links in Hks'.
  destruct (World.peers w !! VirtualConnection.remote (conn tm)) as [p|]; [|done].
  injection Hks' as <-. exists p.
  unfold VirtualPeer.remoteIndex.
  destruct (list_find (λ x, x = VirtualConnection.local (conn tm))
              (VirtualConnection.remote <$> VirtualPeer.connections p))
    as [[i x]|] eqn:Hf; [by exists i|].
  apply list_find_None in Hf. rewrite Forall_forall in Hf.
  destruct (Hf (VirtualConnection.remote k')); [|done].
  apply list_elem_of_fmap. by exists k'.
Qed.

(** ** One task per snapshot in every peer of a run *)

Lemma call_NoDup p c : NoDup (ids p) → NoDup (ids (call p c).1).
Proof.
  intros Hnd. destruct (call p c) as [p' effects] eqn:Hcall. simpl.
  destruct (call_ids _ _ _ _ Hcall) as [-> | (id & Hfresh & ->)]; [done|].
  apply NoDup_app. split_and!; [done| |apply NoDup_singleton].
  intros x Hx ->%list_elem_of_singleton. done.
Qed.

Lemma oneTaskPerId_invoke w a c : oneTaskPerId w → oneTaskPerId (invoke w a c).
Proof.
  intros Hw x px. destruct (World.peers w !! a) as [p|] eqn:Hp.
  - destruct (invoke_fields w a c p Hp) as (-> & _).
    destruct (decide (a = x)) as [->|Hne].
    + rewrite lookup_insert_eq. intros [= <-]. apply call_NoDup. by eapply Hw.
    + rewrite lookup_insert_ne by done. apply Hw.
  - unfold invoke. rewrite Hp. apply Hw.
Qed.

Lemma oneTaskPerId_step w w' : World.step w w' → oneTaskPerId w → oneTaskPerId w'.
Proof.
  destruct 1 as [w name resources|w a b dab dba Ha Hb|w a id _|w a receiver amount _ _
                 |w c Hc|w older tm newer Hts Hdue Hfirst]; intros Hw.
  - intros x px. unfold World.alloc. cbn [snd World.with_peers World.peers].
    destruct (decide (fresh (dom (World.peers w)) = x)) as [<-|Hne].
    + rewrite lookup_insert_eq. intros [= <-]. apply NoDup_nil_2.
    + rewrite lookup_insert_ne by done. apply Hw.
  - intros x px. rewrite (connect_lookup _ _ _ _ _ _ Ha Hb).
    destruct (World.peers w !! x) as [p|] eqn:Hp; [|done].
    intros [= <-]. change (NoDup (ids p)). by eapply Hw.
  - rewrite initiateSnapshot_invoke. by apply oneTaskPerId_invoke.
  - rewrite initiatePayment_invoke. by apply oneTaskPerId_invoke.
  - done.
  - rewrite deliver_invoke. by apply oneTaskPerId_invoke.
Qed.

(** X9. In every state the program can reach from its start, where peers
    are created with an empty task list, every peer has at most one task
    per snapshot id. *)
Theorem reachable_one_task_per_id w a p :
  World.reachable w →
  World.peers w !! a = Some p →
  NoDup (ids p).
Proof.
  intros Hreach. revert a p.
  induction Hreach as [|w w' _ IH Hstep]; [done|].
  by apply (oneTaskPerId_step w w' Hstep).
Qed.

(** ** Conservation of resources *)

Lemma held_insert_fresh ps a p :
  ps !! a = None →
  held (<[a := p]> ps) = (valueOf (VirtualPeer.resources p) + held ps)%Z.
Proof.
  intros Ha. unfold held. rewrite map_fold_insert_L; [done| |done].
  intros. lia.
Qed.

Lemma held_insert ps a p p' :
  ps !! a = Some p →
  held (<[a := p']> ps)
  = (held ps - valueOf (VirtualPeer.resources p) + valueOf (VirtualPeer.resources p'))%Z.
Proof.
  intros Ha.
  assert (Hdel : held ps = (valueOf (VirtualPeer.resources p) + held (delete a ps))%Z).
  { unfold held. erewrite (map_fold_delete_L _ _ a p ps); [done| |done].
    intros. lia. }
  rewrite <- (insert_delete_eq ps a p'), held_insert_fresh by apply lookup_delete_eq.
  lia.
Qed.

Lemma inFlight_app ts1 ts2 : inFlight (ts1 ++ ts2) = (inFlight ts1 + inFlight ts2)%Z.
Proof.
  unfold inFlight. rewrite fmap_app. induction (carried <$> ts1) as [|x l IH]; simpl.
  - done.
  - unfold sumZ in *. lia.
Qed.

Lemma inFlight_cons tm ts : inFlight (tm :: ts) = (carried tm + inFlight ts)%Z.
Proof. done. Qed.

(** The amount carried by the messages a call sends: that of a payment
    that returns, nothing otherwise. *)
Lemma call_sent_amount p c :
  inFlight (sendTimers 0 (call p c).2)
  = match c with
    | InitiatePayment receiver amount =>
        match (VirtualPeer.initiatePayment p receiver amount).2 with
        | Returned => amount
        | ThrewTypeError => 0%Z
        end
    | _ => 0%Z
    end.
Proof.
  assert (Hall : ∀ id, inFlight (sendTimers 0 (VirtualPeer.sendAll p (marker id))) = 0%Z).
  { intros id. unfold VirtualPeer.sendAll.
    induction (VirtualPeer.connections p) as [|k ks IH]; [done|].
    simpl. unfold inFlight in *. simpl. unfold carried at 1. simpl. exact IH. }
  destruct c as [message remote|id|receiver amount]; cbn [call].
  - destruct message as [[] v].
    { change (Message.mk Message.resource v) with (transfer v).
      by rewrite handleMessage_resource. }
    unfold VirtualPeer.handleMessage. cbn [Message.type Message.value].
    destruct (VirtualPeer.findOrCreate p v) as [[tasks pos] snapshot].
    destruct remote as [S|]; cbv zeta; [|apply Hall].
    destruct (not_ _); [|done].
    destruct (decide _); cbn [snd]; [done|apply Hall].
  - unfold VirtualPeer.initiateSnapshot, VirtualPeer.handleMessage.
    cbn [Message.type Message.value].
    destruct (VirtualPeer.findOrCreate p id) as [[tasks pos] snapshot]. cbn [snd].
    apply Hall.
  - unfold VirtualPeer.initiatePayment.
    destruct (list_find _ _) as [[pos k]|]; cbn [fst snd]; [|done].
    unfold inFlight, sendTimers, carried. simpl. lia.
Qed.

Lemma inFlight_sendTimers clock es :
  inFlight (sendTimers clock es) = inFlight (sendTimers 0 es).
Proof.
  unfold inFlight. f_equal. unfold sendTimers.
  induction es as [|e es IH]; [done|].
  destruct e as [k m| |]; simpl; [|done..]. by f_equal.
Qed.

Lemma total_invoke w a c p :
  World.peers w !! a = Some p →
  total (invoke w a c)
  = (total w - valueOf (VirtualPeer.resources p)
     + valueOf (balanceAfter (VirtualPeer.resources p) c)
     + inFlight (sendTimers 0 (call p c).2))%Z.
Proof.
  intros Hp. unfold total. destruct (invoke_fields w a c p Hp) as (-> & _ & ->).
  rewrite (held_insert _ _ _ _ Hp), call_resources, inFlight_app, inFlight_sendTimers.
  lia.
Qed.

Lemma reachable_linked w : World.reachable w → linked w ∧ timersLinked w.
Proof.
  induction 1 as [|w w' _ IH Hstep].
  - split; [intros a ks k Hks|intros tm Htm]; [done|by apply not_elem_of_nil in Htm].
  - by eapply linked_step.
Qed.

Lemma total_push w a k : total (World.push w a k) = total w.
Proof.
  unfold World.push. destruct (World.peers w !! a) as [p|] eqn:Hp; [|done].
  unfold total. cbn [World.with_peers World.peers World.timers].
  rewrite (held_insert _ _ _ _ Hp). simpl. lia.
Qed.

(** X10. The resources of the simulation are the integer balances of
    all peers plus the amounts of the transfers not yet
    delivered. In any state the program can reach, connecting peers,
    initiating a snapshot, the passing of time and the delivery of a marker
    leave the total as it is; so do a payment that returns and the delivery
    of a transfer, when the balance they change is an integer and the result
    of the debit or credit has a magnitude of at most 2^53, so that
    JavaScript does not round it. Creating a peer adds its initial
    resources, and a payment that throws takes its amount out of the total
    (under the same condition on the debit). *)
Theorem resources_are_conserved w :
  World.reachable w →
  (∀ name resources,
     total (World.alloc w name resources).2 = (total w + resources)%Z)
  ∧ (∀ a b delayab delayba, total (World.connect w a b delayab delayba) = total w)
  ∧ (∀ a id, total (World.initiateSnapshot w a id) = total w)
  ∧ (∀ c, total (World.with_clock w c) = total w)
  ∧ (∀ a receiver amount b,
       is_Some (World.peers w !! a) →
       World.balance w a = Num b →
       safe (b - amount) →
       total (World.initiatePayment w a receiver amount).1
       = match (World.initiatePayment w a receiver amount).2 with
         | Returned => total w
         | ThrewTypeError => (total w - amount)%Z
         end)
  ∧ (∀ older tm newer,
       World.timers w = older ++ tm :: newer →
       (Message.type (msg tm) = Message.resource →
        ∃ b, World.balance w (VirtualConnection.remote (conn tm)) = Num b
             ∧ safe (b + Message.value (msg tm))) →
       total (World.deliver (World.with_timers w (older ++ newer)) tm) = total w).
Proof.
  intros Hreach. split_and!.
  - intros name resources. unfold total, World.alloc.
    cbn [snd World.with_peers World.peers World.timers].
    rewrite held_insert_fresh; [|apply (alloc_fresh w name resources)].
    cbn [VirtualPeer.new VirtualPeer.resources valueOf]. lia.
  - intros a b delayab delayba. unfold World.connect. by rewrite !total_push.
  - intros a id. rewrite initiateSnapshot_invoke.
    destruct (World.peers w !! a) as [p|] eqn:Hp.
    + rewrite (total_invoke _ _ _ _ Hp), call_sent_amount. cbn [balanceAfter]. lia.
    + unfold invoke. by rewrite Hp.
  - done.
  - intros a receiver amount b [p Hp] Hb Hsafe. rewrite initiatePayment_invoke.
    rewrite (total_invoke _ _ _ _ Hp), call_sent_amount.
    unfold World.balance in Hb. rewrite Hp in Hb. simpl in Hb.
    cbn [balanceAfter]. rewrite Hb, (subNumber_safe _ _ Hsafe). cbn [valueOf].
    unfold World.initiatePayment. rewrite Hp.
    destruct (VirtualPeer.initiatePayment p receiver amount) as [[p' es] []];
      simpl; lia.
  - intros older tm newer Hts Hexact.
    destruct (reachable_linked w Hreach) as [Hl Ht].
    assert (Htm : tm ∈ World.timers w).
    { rewrite Hts. apply elem_of_app. right. left. }
    destruct (Ht tm Htm) as (ks & Hks & Hin).
    destruct (Hl _ _ _ Hks Hin) as (_ & ks' & Hks' & _).
    unfold links in Hks'. unfold World.balance in Hexact.
    destruct (World.peers w !! VirtualConnection.remote (conn tm)) as [p|] eqn:Hp;
      [|done].
    simpl in Hexact. rewrite deliver_invoke.
    rewrite (total_invoke _ _ _ p) by done.
    rewrite call_sent_amount. unfold total. rewrite Hts.
    cbn [World.log World.with_timers World.peers World.timers].
    rewrite !inFlight_app, inFlight_cons. cbn [balanceAfter]. unfold carried.
    destruct (Message.type (msg tm)).
    + destruct (Hexact eq_refl) as (b & Hb & Hsafe).
      rewrite Hb, (addNumber_safe _ _ Hsafe). cbn [valueOf]. lia.
    + lia.
Qed.

(** ** Completion is logged once *)

Lemma dense_new p id :
  dense (length (VirtualPeer.connections p)) (VirtualPeer.newSnapshotTask p id).
Proof.
  intros i Hi. unfold VirtualPeer.newSnapshotTask. cbn [SnapshotTask.receiveStatus].
  rewrite get_of_list, list_lookup_fmap.
  destruct (lookup_lt_is_Some_2 (VirtualPeer.connections p) i Hi) as [k ->]. by eexists.
Qed.

Lemma dense_set n t i :
  dense n t →
  dense n (SnapshotTask.mk (SnapshotTask.id t)
             (JsArray.set (SnapshotTask.receiveStatus t) i true)
             (SnapshotTask.capturedResources t)).
Proof.
  intros Ht j Hj. cbn [SnapshotTask.receiveStatus].
  destruct (decide (i = Idx j)) as [->|Hne].
  - rewrite get_set_eq. by eexists.
  - rewrite get_set_ne by done. by apply Ht.
Qed.

Lemma flagged_call p c : flagged p → flagged (call p c).1.
Proof.
  unfold flagged. rewrite call_connections.
  set (n := length (VirtualPeer.connections p)). intros Hp.
  assert (Hmarker : ∀ id remote,
    Forall (dense n)
      (VirtualPeer.snapshotTasks (VirtualPeer.handleMessage p (marker id) remote).1)).
  { intros id remote.
    destruct (VirtualPeer.findOrCreate p id) as [[tasks pos] snapshot] eqn:Hfc.
    rewrite (handleMessage_marker_tasks _ _ _ _ _ _ Hfc).
    assert (Htasks : Forall (dense n) tasks).
    { destruct (findOrCreate_cases _ _ _ _ _ Hfc) as [[_ ->]|(_ & -> & _ & _)];
        [done|].
      apply Forall_app. split; [done|]. apply Forall_singleton, dense_new. }
    case_decide; [|done]. apply Forall_insert; [done|]. apply dense_set.
    pose proof (findOrCreate_found _ _ _ _ _ Hfc) as (Hpos & _)%list_find_Some.
    by eapply (Forall_lookup_1 _ _ _ _ Htasks Hpos). }
  destruct c as [message remote|id|receiver amount]; cbn [call].
  - destruct message as [[] v].
    + change (Message.mk Message.resource v) with (transfer v).
      rewrite handleMessage_resource. cbn [fst VirtualPeer.snapshotTasks].
      apply Forall_fmap. eapply Forall_impl; [exact Hp|].
      intros t Ht i Hi. simpl. rewrite credit_receiveStatus. by apply Ht.
    + apply Hmarker.
  - unfold VirtualPeer.initiateSnapshot.
    change (Message.mk Message.snapshot id) with (marker id).
    specialize (Hmarker id None).
    by destruct (VirtualPeer.handleMessage p (marker id) None).
  - unfold VirtualPeer.initiatePayment.
    by destruct (list_find (λ k, VirtualConnection.remote k = receiver) _) as [[? ?]|].
Qed.

(** The call that logs the completion of snapshot [id] is a marker of [id]
    with a sender; it logs nothing else and sends nothing, and it leaves
    the task found for [id] with that vector and no flag that is [false]. *)
Lemma completed_state p c id v :
  Completed id v ∈ (call p c).2 →
  ∃ remote pos t',
    c = HandleMessage (marker id) remote
    ∧ remote ≠ None
    ∧ (call p c).2 = [Completed id v]
    ∧ list_find (hasId id) (VirtualPeer.snapshotTasks (call p c).1) = Some (pos, t')
    ∧ AllClosed (SnapshotTask.receiveStatus t')
    ∧ v = SnapshotTask.capturedResources t'.
Proof.
  intros Hin.
  destruct (call_completed p c id v Hin)
    as (remote & tasks & pos & snapshot & -> & Hr & Hfc & Hopen & ->).
  pose proof (findOrCreate_found _ _ _ _ _ Hfc) as Hfound.
  pose proof Hfound as (_ & Hid & _)%list_find_Some.
  exists remote, pos. cbn [call] in *.
  unfold VirtualPeer.handleMessage, marker in *.
  cbn [Message.type Message.value] in *. rewrite Hfc in *.
  destruct remote as [S|]; [|done]. cbv zeta in *. rewrite Hopen in *.
  destruct (decide (VirtualPeer.listening _ = 0)) as [Hz|Hnz]; cbn [fst snd] in *.
  - exists (SnapshotTask.mk (SnapshotTask.id snapshot)
              (JsArray.set (SnapshotTask.receiveStatus snapshot)
                 (VirtualPeer.remoteIndex p (Some S)) true)
              (SnapshotTask.capturedResources snapshot)).
    split; [done|]. split; [done|]. split; [simpl; by rewrite Hid|].
    split; [|split; [by apply listening_zero in Hz|done]].
    cbn [VirtualPeer.with_snapshotTasks VirtualPeer.snapshotTasks].
    eapply list_find_replace; [exact Hfound|exact Hid].
  - apply list_elem_of_fmap in Hin as (k & Hk & _). done.
Qed.

(** X11. A completion of snapshot [id] is logged only by the call that
    handles a marker of [id] with a sender; that call logs nothing else and
    sends nothing, the vector logged is the vector of the task found for
    [id], and no flag of that task is [false]. So transfers, payments and
    [initiateSnapshot], also on a peer without connections, never log a
    completion. *)
Theorem completion_only_by_marker p c id v :
  Completed id v ∈ (call p c).2 →
  ∃ remote pos t',
    c = HandleMessage (marker id) remote
    ∧ remote ≠ None
    ∧ (call p c).2 = [Completed id v]
    ∧ list_find (hasId id) (VirtualPeer.snapshotTasks (call p c).1) = Some (pos, t')
    ∧ AllClosed (SnapshotTask.receiveStatus t')
    ∧ v = SnapshotTask.capturedResources t'.
Proof. apply completed_state. Qed.

Lemma filter_completes_nil id es :
  (∀ v, Completed id v ∉ es) → filter (completes id) es = [].
Proof.
  intros Hno. destruct (filter (completes id) es) as [|e l] eqn:Hf; [done|exfalso].
  assert (He : e ∈ filter (completes id) es) by (rewrite Hf; left).
  apply list_elem_of_filter in He as [Hc He].
  destruct e as [|id' v|]; [done| |done]. simpl in Hc. subst id'. by apply (Hno v).
Qed.

(** X12. When every task of a peer has a flag for each connection, then over
    any calls that come from the driver or from peers the peer has a
    connection to, the completion of a snapshot is logged at most once. *)
Theorem completion_logged_at_most_once cs p id :
  flagged p →
  Forall (fromNeighbour p) cs →
  length (filter (completes id) (calls p cs).2) ≤ 1.
Proof.
  revert p. induction cs as [|c cs IH]; intros p Hp Hcs; [simpl; lia|].
  apply Forall_cons in Hcs as [Hc Hcs].
  rewrite calls_cons. cbn [snd]. rewrite filter_app, length_app.
  assert (Hks : VirtualPeer.connections p = VirtualPeer.connections (call p c).1)
    by (by rewrite call_connections).
  assert (Hcs' : Forall (fromNeighbour (call p c).1) cs).
  { eapply Forall_impl; [exact Hcs|]. intros c'. by apply fromNeighbour_ext. }
  pose proof (flagged_call p c Hp) as Hp1.
  destruct (filter (completes id) (call p c).2) as [|e l] eqn:Hf.
  - simpl. by apply IH.
  - assert (He : e ∈ filter (completes id) (call p c).2) by (rewrite Hf; left).
    apply list_elem_of_filter in He as [Hce He].
    destruct e as [|id' v|]; [done| |done]. simpl in Hce. subst id'.
    destruct (completed_state p c id v He)
      as (remote & pos & t' & _ & _ & Hes & Hfound & Hall & _).
    rewrite Hes, filter_cons_True, filter_nil in Hf by done.
    injection Hf as <-.
    assert (Hclosed : closedFor (length (VirtualPeer.connections (call p c).1)) t').
    { intros i Hi. pose proof Hfound as (Hpos & _)%list_find_Some.
      destruct (Forall_lookup_1 _ _ _ _ Hp1 Hpos i Hi) as [b Hb].
      rewrite Hb. f_equal. by eapply Hall. }
    destruct (complete_calls cs (call p c).1 id pos t' Hfound Hclosed Hcs') as [_ Hno].
    rewrite (filter_completes_nil _ _ Hno). simpl. lia.
Qed.


(** * The further properties on the driver's scenario *)

Example callsWhileListening_result :
  (calls peer_k_listening callsWhileListening).1
  = VirtualPeer.mk "k"%string (Num 136) (VirtualPeer.connections peer_k)
      [SnapshotTask.mk 201 (JsArray.mk [Some false; Some true] None)
         (JsArray.mk [Some (Num 42); Some (Num 0); Some (Num 100)] None);
       SnapshotTask.mk 301 (JsArray.mk [Some true; Some false] None)
         (JsArray.mk [Some (Num 0); Some (Num 0); Some (Num 129)] None)].
Proof. by vm_compute. Qed.

Example scenario_total : total threePeers = 300%Z ∧ total run5 = 300%Z.
Proof. split; by vm_compute. Qed.

Lemma closed_channel_is_frozen_witness :
  ∃ t',
    VirtualPeer.snapshotTasks (calls peer_k_listening callsWhileListening).1 !! 0
    = Some t'
    ∧ JsArray.get (SnapshotTask.receiveStatus t') (Idx 1) = Some true
    ∧ JsArray.get (SnapshotTask.capturedResources t') (Idx 1) = Some (Num 0).
Proof.
  destruct (closed_channel_is_frozen callsWhileListening peer_k_listening 0
              (SnapshotTask.mk 201 (JsArray.mk [Some false; Some true] None)
                 (JsArray.mk [Some (Num 0); Some (Num 0); Some (Num 100)] None))
              (Idx 1))
    as (t' & Hpos & _ & Hflag & Hslot); [reflexivity..|].
  exists t'. split; [exact Hpos|]. split; [exact Hflag|]. exact Hslot.
Defined.

Lemma callsWhileListening_open :
  Forall (λ c, ¬ closes peer_k_listening 201 0 c) callsWhileListening.
Proof.
  unfold callsWhileListening.
  repeat (apply Forall_cons; split;
          [vm_compute; first [intros (H1 & H2 & H3); discriminate|intros []]|]).
  apply Forall_nil_2.
Defined.

Lemma callsWhileListening_safe :
  safeFrom 0 (creditedAt peer_k_listening 0 <$> callsWhileListening)
  ∧ safeFrom 100 (delta <$> callsWhileListening).
Proof. vm_compute. repeat split; discriminate. Defined.

Lemma in_transit_accumulates_witness :
  ∃ t',
    VirtualPeer.snapshotTasks (calls peer_k_listening callsWhileListening).1 !! 0
    = Some t'
    ∧ JsArray.get (SnapshotTask.capturedResources t') (Idx 0) = Some (Num 42).
Proof.
  destruct (in_transit_accumulates callsWhileListening peer_k_listening 0
              (SnapshotTask.mk 201 (JsArray.mk [Some false; Some true] None)
                 (JsArray.mk [Some (Num 0); Some (Num 0); Some (Num 100)] None))
              0 0)
    as (t' & Hpos & _ & _ & Hslot);
    [reflexivity|reflexivity|reflexivity|exact callsWhileListening_open
    |exact (proj1 callsWhileListening_safe)|].
  exists t'. split; [exact Hpos|exact Hslot].
Defined.

Lemma balance_accounting_witness :
  VirtualPeer.resources (calls peer_k_listening callsWhileListening).1 = Num 136.
Proof.
  exact (proj2 (balance_accounting callsWhileListening peer_k_listening) 100%Z eq_refl
           (proj2 callsWhileListening_safe)).
Defined.

Lemma callsWhileListening_fromNeighbour p :
  VirtualPeer.connections p = VirtualPeer.connections peer_k →
  Forall (fromNeighbour p) callsWhileListening.
Proof.
  intros Hks. unfold callsWhileListening.
  repeat (apply Forall_cons; split;
          [first [exact I
                 |right; rewrite (remoteIndex_ext p peer_k _ Hks); eexists; reflexivity]|]).
  apply Forall_nil_2.
Defined.

Lemma peer_k_done_closed :
  closedFor (length (VirtualPeer.connections peer_k_done))
    (SnapshotTask.mk 201 (JsArray.mk [Some true; Some true] None)
       (JsArray.mk [Some (Num 0); Some (Num 0); Some (Num 100)] None)).
Proof.
  intros [|[|i]] Hi; [reflexivity|reflexivity|]. vm_compute in Hi. lia.
Defined.

Lemma complete_task_is_final_witness :
  list_find (hasId 201%Z)
    (VirtualPeer.snapshotTasks (calls peer_k_done callsWhileListening).1)
  = Some (0, SnapshotTask.mk 201 (JsArray.mk [Some true; Some true] None)
               (JsArray.mk [Some (Num 0); Some (Num 0); Some (Num 100)] None)).
Proof.
  refine (proj1 (complete_task_is_final callsWhileListening peer_k_done 201 0 _ _ _ _)).
  - reflexivity.
  - exact peer_k_done_closed.
  - apply callsWhileListening_fromNeighbour. reflexivity.
Defined.

Lemma stranger_touches_no_slot_witness :
  ∃ t',
    VirtualPeer.snapshotTasks
      (VirtualPeer.handleMessage peer_k_listening (transfer 35) (Some 7)).1 !! 0
    = Some t'
    ∧ JsArray.elems (SnapshotTask.capturedResources t')
      = [Some (Num 0); Some (Num 0); Some (Num 100)].
Proof.
  destruct (stranger_touches_no_slot peer_k_listening (transfer 35) (Some 7) 0
              (SnapshotTask.mk 201 (JsArray.mk [Some false; Some true] None)
                 (JsArray.mk [Some (Num 0); Some (Num 0); Some (Num 100)] None)))
    as (t' & Hpos & _ & _ & Hslots); [reflexivity..|].
  exists t'. split; [exact Hpos|exact Hslots].
Defined.

Lemma leaf_never_forwards_witness :
  (VirtualPeer.handleMessage peer_leaf (marker 201) (Some 0)).2
  = [Completed 201 (JsArray.mk [Some (Num 0); Some (Num 50)] None)]
  ∧ ¬ isSend (Completed 201 (JsArray.mk [Some (Num 0); Some (Num 50)] None)).
Proof.
  split; [reflexivity|].
  apply (leaf_never_forwards peer_leaf (VirtualConnection.mk 3 0 100) 201).
  - reflexivity.
  - apply Forall_nil_2.
  - vm_compute. left.
Defined.

Lemma connect_keeps_positions_witness :
  (World.initiatePayment (World.connect threePeers 0 1 5 6) 0 1 32).2 = Returned.
Proof.
  refine (proj1 (proj2 (connect_keeps_positions threePeers 0 1 5 6 1 peer_j _ _ _)) 32%Z).
  - vm_compute. eauto.
  - vm_compute. eauto.
  - by vm_compute.
Defined.

Lemma run4_reachable : World.reachable run4.
Proof.
  assert (H0 : World.reachable threePeers).
  { unfold threePeers.
    eapply World.reachable_step; [|apply World.step_connect; vm_compute; eauto].
    eapply World.reachable_step; [|apply World.step_connect; vm_compute; eauto].
    eapply World.reachable_step; [|apply World.step_connect; vm_compute; eauto].
    eapply World.reachable_step; [|apply World.step_new].
    eapply World.reachable_step; [|apply World.step_new].
    eapply World.reachable_step; [|apply World.step_new].
    apply World.reachable_empty. }
  assert (H1 : World.reachable run1)
    by (eapply World.reachable_step;
        [exact H0|apply World.step_initiateSnapshot; vm_compute; eauto]).
  assert (H2 : World.reachable run2).
  { eapply World.reachable_step; [exact H1|]. apply World.step_tick. by vm_compute. }
  assert (H3 : World.reachable run3)
    by (eapply World.reachable_step;
        [exact H2|apply World.step_initiatePayment; vm_compute; eauto]).
  eapply World.reachable_step; [exact H3|]. apply World.step_tick. by vm_compute.
Defined.

Lemma senders_are_neighbours_witness :
  ∃ p i,
    World.peers run4 !! 2 = Some p
    ∧ VirtualPeer.remoteIndex p (Some 1) = Idx i.
Proof.
  refine (proj2 (senders_are_neighbours run4 run4_reachable)
            (mkTimer 2800 (VirtualConnection.mk 1 2 2100) (transfer 35)) _).
  vm_compute. right. right. left.
Defined.

Lemma reachable_one_task_per_id_witness :
  ∃ p, World.peers run4 !! 0 = Some p ∧ NoDup (ids p).
Proof.
  eexists. split; [vm_compute; reflexivity|].
  eapply (reachable_one_task_per_id run4 0); [exact run4_reachable|].
  vm_compute. reflexivity.
Defined.

Lemma resources_are_conserved_witness :
  total (World.deliver
           (World.with_timers run4
              ([markerToJ; mkTimer 1600 (VirtualConnection.mk 0 2 1600) (marker 201)]
               ++ []))
           (mkTimer 2800 (VirtualConnection.mk 1 2 2100) (transfer 35)))
  = total run4.
Proof.
  refine (proj2 (proj2 (proj2 (proj2 (proj2
            (resources_are_conserved run4 run4_reachable)))))
            [markerToJ; mkTimer 1600 (VirtualConnection.mk 0 2 1600) (marker 201)]
            (mkTimer 2800 (VirtualConnection.mk 1 2 2100) (transfer 35)) [] _ _).
  - by vm_compute.
  - intros _. exists 100%Z. split; [by vm_compute|]. unfold safe. simpl. lia.
Defined.

Lemma completion_only_by_marker_witness :
  ∃ remote pos t',
    HandleMessage (marker 201) (Some 1) = HandleMessage (marker 201) remote
    ∧ remote ≠ None
    ∧ list_find (hasId 201%Z)
        (VirtualPeer.snapshotTasks
           (call peer_k_listening (HandleMessage (marker 201) (Some 1))).1)
      = Some (pos, t')
    ∧ AllClosed (SnapshotTask.receiveStatus t').
Proof.
  destruct (completion_only_by_marker peer_k_listening
              (HandleMessage (marker 201) (Some 1)) 201
              (JsArray.mk [Some (Num 0); Some (Num 0); Some (Num 100)] None))
    as (remote & pos & t' & Hc & Hr & _ & Hfound & Hall & _).
  - vm_compute. left.
  - exists remote, pos, t'. split; [exact Hc|]. split; [exact Hr|].
    split; [exact Hfound|exact Hall].
Defined.

Lemma peer_k_listening_flagged : flagged peer_k_listening.
Proof.
  apply Forall_singleton. intros [|[|i]] Hi; [by eexists|by eexists|].
  vm_compute in Hi. lia.
Defined.

Lemma completion_logged_at_most_once_witness :
  length (filter (completes 201)
            (calls peer_k_listening
               (callsWhileListening ++ [HandleMessage (marker 201) (Some 1);
                                        HandleMessage (marker 201) (Some 1)])).2) ≤ 1.
Proof.
  apply completion_logged_at_most_once.
  - exact peer_k_listening_flagged.
  - apply Forall_app. split.
    + apply callsWhileListening_fromNeighbour. reflexivity.
    + repeat (apply Forall_cons; split; [right; eexists; reflexivity|]).
      apply Forall_nil_2.
Defined.
